(** * Onboarding portal: the session store and the admin dashboard loader

    A shallow embedding of
    - [src/contexts/AuthContext.tsx]: [useAuth], and the three operations of
      [AuthProvider] (the mount effect, [login], [logout]);
    - [src/components/Layout.tsx] and the effect of the home page;
    - the admin dashboard page: [loadDashboardData], [getEmployeeStats];
    - the task management page: the search and selection of employees,
      [loadData], [handleCreateTask], the counters and the assignee column;
    - [calculateOnboardingProgress] of [@/lib/onboardingUtils].

    JavaScript values are a small tagged union, statements run in a state
    monad whose state survives a [throw], and the browser is a record holding
    [localStorage] as a finite map.  The session store is given twice: over
    a storage that works, and over a storage whose access or writes may
    throw ([Storage], [initialize_on], [login_on], [logout_on]). *)

From stdpp Require Import gmap strings list pretty.
From Stdlib Require Import ZArith Ascii.

Open Scope Z_scope.

(** ** JavaScript values *)

Set Warnings "-register-all".

(** The values the code handles: what [JSON.parse] and the API client hand
    over, and what the components keep in React state.  Numbers are the
    integers: nothing here computes with them, only their truthiness and
    their decimal rendering are observed. *)
Inductive JsVal : Type :=
| JUndefined
| JNull
| JBool (b : bool)
| JNum (n : Z)
| JStr (s : string)
| JArr (items : list JsVal)
| JObj (props : list (string * JsVal)).

(** What a [throw] carries. *)
Inductive Exception : Type :=
| TypeError
| SyntaxError
| ReferenceError
| Error (message : string).

(** The completion of an expression or of an awaited promise: a value, or a
    thrown exception (a rejected promise). *)
Inductive Completion (A : Type) : Type :=
| Normal (a : A)
| Throw (e : Exception).
Arguments Normal {A} a.
Arguments Throw {A} e.

Definition is_normal {A} (c : Completion A) : bool :=
  match c with Normal _ => true | Throw _ => false end.

#[global] Instance completion_ret : MRet Completion := fun _ a => Normal a.
#[global] Instance completion_bind : MBind Completion := fun _ _ k c =>
  match c with
  | Normal a => k a
  | Throw e => Throw e
  end.

#[global] Instance completion_fmap : FMap Completion := fun _ _ f c =>
  match c with
  | Normal a => Normal (f a)
  | Throw e => Throw e
  end.

(** ToBoolean. *)
Definition truthy (v : JsVal) : bool :=
  match v with
  | JUndefined | JNull => false
  | JBool b => b
  | JNum n => negb (n =? 0)
  | JStr EmptyString => false
  | JStr (String _ _) => true
  | JArr _ | JObj _ => true
  end.

(** [v === null || v === undefined] *)
Definition nullish (v : JsVal) : bool :=
  match v with
  | JUndefined | JNull => true
  | _ => false
  end.

(** [a || b] on values already evaluated; where the right operand can throw,
    the short circuit is written out at the call site. *)
Definition js_or (a b : JsVal) : JsVal := if truthy a then a else b.

Fixpoint assoc (k : string) (props : list (string * JsVal)) : option JsVal :=
  match props with
  | [] => None
  | (k', v) :: rest => if String.eqb k k' then Some v else assoc k rest
  end.

(** [v.k] for the property names the source reads ([success], [data],
    [accessToken], [user], [_id], [id], [name], ...): a [TypeError] on [null]
    and [undefined], the own property of an object, [undefined] otherwise
    (none of these names is an index, [length] or a prototype property). *)
Definition get (v : JsVal) (k : string) : Completion JsVal :=
  match v with
  | JUndefined | JNull => Throw TypeError
  | JObj props => Normal (default JUndefined (assoc k props))
  | _ => Normal JUndefined
  end.

(** [String(v)], the coercion [localStorage.setItem] applies to its value.
    A number is rendered by its decimal digits, which is [String] on the
    integers below [1e21] only ([String(1e21)] is ['1e+21']); the statements
    below that name the stored token take it to be a string. *)
Fixpoint ToString (v : JsVal) : string :=
  match v with
  | JUndefined => "undefined"
  | JNull => "null"
  | JBool true => "true"
  | JBool false => "false"
  | JNum n => pretty n
  | JStr s => s
  | JArr items =>
      String.concat ","
        (map (fun i => if nullish i then EmptyString else ToString i) items)
  | JObj _ => "[object Object]"
  end.

(** [Array.prototype.map] with a callback that may throw: the elements are
    visited in order and the first exception leaves the loop. *)
Fixpoint map_elements (f : JsVal -> Completion JsVal) (items : list JsVal)
  : Completion (list JsVal) :=
  match items with
  | [] => Normal []
  | i :: rest =>
      v ← f i; vs ← map_elements f rest; Normal (v :: vs)
  end.

(** [a.map(f)]: defined on arrays; on any other value that has properties,
    [a.map] is [undefined] and the call is a [TypeError], as is the property
    access itself on [null] and [undefined]. *)
Definition array_map (f : JsVal -> Completion JsVal) (a : JsVal)
  : Completion JsVal :=
  match a with
  | JArr items => JArr <$> map_elements f items
  | _ => Throw TypeError
  end.

(** The test [r.success && r.data] that guards every use of an API
    response. *)
Definition success_and_data (r : JsVal) : Completion bool :=
  success ← get r "success";
  if truthy success then truthy <$> get r "data" else Normal false.

(** [x._id || x.id], how every record of the API is given its [id]. *)
Definition id_of (x : JsVal) : Completion JsVal :=
  _id ← get x "_id";
  if truthy _id then Normal _id else get x "id".

(** *** Statements: state that survives a throw *)

Definition Stmt (S A : Type) : Type := S -> Completion A * S.

Definition ret {S A} (a : A) : Stmt S A := fun s => (Normal a, s).

Definition bind {S A B} (m : Stmt S A) (k : A -> Stmt S B) : Stmt S B :=
  fun s =>
    match m s with
    | (Normal a, s') => k a s'
    | (Throw e, s') => (Throw e, s')
    end.

(** An expression evaluated inside a statement. *)
Definition eval {S A} (c : Completion A) : Stmt S A := fun s => (c, s).

Definition modify {S} (f : S -> S) : Stmt S unit := fun s => (Normal tt, f s).

(** [try { body } catch (error) { handler }] *)
Definition try_catch {S A} (body : Stmt S A) (handler : Exception -> Stmt S A)
  : Stmt S A :=
  fun s =>
    match body s with
    | (Normal a, s') => (Normal a, s')
    | (Throw e, s') => handler e s'
    end.

(** [try { body } finally { final }]: [final] runs on both exits, and the
    completion of [body] is kept unless [final] itself throws. *)
Definition try_finally {S A} (body : Stmt S A) (final : Stmt S unit)
  : Stmt S A :=
  fun s =>
    match body s with
    | (c, s') =>
        match final s' with
        | (Normal _, s'') => (c, s'')
        | (Throw e, s'') => (Throw e, s'')
        end
    end.

Definition when {S} (b : bool) (m : Stmt S unit) : Stmt S unit :=
  if b then m else ret tt.

Declare Scope stmt_scope.
Delimit Scope stmt_scope with stmt.
Notation "x <- m ;; k" := (bind m (fun x => k))
  (at level 100, m at next level, right associativity) : stmt_scope.
Notation "m ;; k" := (bind m (fun _ => k))
  (at level 100, right associativity) : stmt_scope.

(** ** The session store: [src/contexts/AuthContext.tsx] *)

(** The browser global: present on the client, absent while the component is
    rendered on the server ([typeof window === 'undefined']). *)
Record Window : Type := mkWindow {
  localStorage : gmap string string;
  location_href : string
}.

(** What an operation did, in order: the calls of the React state setters,
    the writes to [localStorage], the assignments to [window.location.href]
    and the [console.error] lines. *)
Inductive Event : Type :=
| SetUser (v : JsVal)
| SetToken (v : JsVal)
| SetLoading (b : bool)
| SetItem (key value : string)
| RemoveItem (key : string)
| Navigate (href : string)
| ConsoleError (label : string).

(** The state of [AuthProvider] ([user], [token], [loading]) together with
    the browser it runs in and the trace of what was done so far. *)
Record World : Type := mkWorld {
  user : JsVal;
  token : JsVal;
  loading : bool;
  window : option Window;
  events : list Event
}.

(** [useState(null)], [useState(null)], [useState(true)] *)
Definition mount (win : option Window) : World :=
  {| user := JNull; token := JNull; loading := true;
     window := win; events := [] |}.

Definition emit (e : Event) (w : World) : list Event := events w ++ [e].

Definition setUser (v : JsVal) : Stmt World unit :=
  modify (fun w =>
    {| user := v; token := token w; loading := loading w;
       window := window w; events := emit (SetUser v) w |}).

Definition setToken (v : JsVal) : Stmt World unit :=
  modify (fun w =>
    {| user := user w; token := v; loading := loading w;
       window := window w; events := emit (SetToken v) w |}).

Definition setLoading (b : bool) : Stmt World unit :=
  modify (fun w =>
    {| user := user w; token := token w; loading := b;
       window := window w; events := emit (SetLoading b) w |}).

Definition console_error (label : string) : Stmt World unit :=
  modify (fun w =>
    {| user := user w; token := token w; loading := loading w;
       window := window w; events := emit (ConsoleError label) w |}).

(** [typeof window !== 'undefined'] *)
Definition typeof_window_defined : Stmt World bool :=
  fun w => (Normal (match window w with Some _ => true | None => false end), w).

(** A statement on the browser global; naming [localStorage] or [window]
    where there is none is a [ReferenceError].  The statement itself does
    not throw: this is a browser whose storage can be named and takes every
    write.  Where naming [localStorage] throws a [SecurityError] or
    [setItem] a [QuotaExceededError], the statements are [storage_getItem],
    [storage_setItem] and [storage_removeItem] below. *)
Definition on_window {A} (f : Window -> A * Window) (ev : list Event)
  : Stmt World A :=
  fun w =>
    match window w with
    | None => (Throw ReferenceError, w)
    | Some win =>
        let '(a, win') := f win in
        (Normal a,
         {| user := user w; token := token w; loading := loading w;
            window := Some win'; events := events w ++ ev |})
    end.

(** [localStorage.getItem(key)] on a storage that can be read: the stored
    string, or [null]. *)
Definition localStorage_getItem (key : string) : Stmt World (option string) :=
  on_window (fun win => (localStorage win !! key, win)) [].

(** [localStorage.setItem(key, value)] on a storage that accepts the
    write. *)
Definition localStorage_setItem (key value : string) : Stmt World unit :=
  on_window
    (fun win =>
       (tt, {| localStorage := <[key := value]> (localStorage win);
               location_href := location_href win |}))
    [SetItem key value].

(** [localStorage.removeItem(key)] on a storage that can be named. *)
Definition localStorage_removeItem (key : string) : Stmt World unit :=
  on_window
    (fun win =>
       (tt, {| localStorage := delete key (localStorage win);
               location_href := location_href win |}))
    [RemoveItem key].

(** [window.location.href = href] *)
Definition set_location_href (href : string) : Stmt World unit :=
  on_window
    (fun win =>
       (tt, {| localStorage := localStorage win; location_href := href |}))
    [Navigate href].

(** What [getItem] returned, as a value: a string or [null]. *)
Definition item (o : option string) : JsVal :=
  match o with
  | Some s => JStr s
  | None => JNull
  end.

(** Truthiness of a [string | null]: [null] and the empty string are falsy. *)
Definition truthy_item (o : option string) : bool := truthy (item o).

(** The object literal [{ id: userData._id || userData.id, name: ..., ... }]
    that [login] builds from the [user] of the response. *)
Definition user_literal (userData : JsVal) : Completion JsVal :=
  id ← id_of userData;
  name ← get userData "name";
  email ← get userData "email";
  phone ← get userData "phone";
  role ← get userData "role";
  startDate ← get userData "startDate";
  Normal (JObj [("id", id); ("name", name); ("email", email);
                ("phone", phone); ("role", role); ("startDate", startDate)]).

Section AuthProvider.

(** The two JSON built-ins are parameters: [JSON_parse s] is the value of
    [JSON.parse(s)] or its [SyntaxError], [JSON_stringify v] the text of
    [JSON.stringify(v)] for an object [v]. *)
Variable JSON_parse : string -> Completion JsVal.
Variable JSON_stringify : JsVal -> string.

Open Scope stmt_scope.

(** The mount effect of [AuthProvider] (lines 42-62): restore the session
    kept in [localStorage], then clear [loading]. *)
Definition initialize : Stmt World unit :=
  has_window <- typeof_window_defined;;
  when has_window
    (storedToken <- localStorage_getItem "authToken";;
     storedUser <- localStorage_getItem "userData";;
     when (truthy_item storedToken && truthy_item storedUser)
       (try_catch
          (setToken (item storedToken);;
           parsed <- eval (JSON_parse (ToString (item storedUser)));;
           setUser parsed)
          (fun error =>
             console_error "Error parsing stored user data:";;
             localStorage_removeItem "authToken";;
             localStorage_removeItem "userData")));;
  setLoading false.

(** The [try] block of [login] (lines 66-95).  [authAPI_login email
    password] is the completion of [await authAPI.login(email, password)]:
    the response, or what the call threw. *)
Definition login_try (authAPI_login : string -> string -> Completion JsVal)
    (email password : string) : Stmt World bool :=
  setLoading true;;
  result <- eval (authAPI_login email password);;
  accepted <- eval (success_and_data result);;
  if accepted then
    data <- eval (get result "data");;
    accessToken <- eval (get data "accessToken");;
    userData <- eval (get data "user");;
    setToken accessToken;;
    record <- eval (user_literal userData);;
    setUser record;;
    has_window <- typeof_window_defined;;
    when has_window
      (localStorage_setItem "authToken" (ToString accessToken);;
       stored <- eval (user_literal userData);;
       localStorage_setItem "userData" (JSON_stringify stored));;
    ret true
  else ret false.

(** [login] (lines 64-102): the [try] block, its [catch] and its
    [finally].  The result is what the returned promise settles to: the
    boolean it resolves to, or the exception it rejects with. *)
Definition login (authAPI_login : string -> string -> Completion JsVal)
    (email password : string) : Stmt World bool :=
  try_finally
    (try_catch
       (login_try authAPI_login email password)
       (fun error => console_error "Login error:";; ret false))
    (setLoading false).

(** [logout] (lines 104-115). *)
Definition logout : Stmt World unit :=
  setUser JNull;;
  setToken JNull;;
  has_window <- typeof_window_defined;;
  when has_window
    (localStorage_removeItem "authToken";;
     localStorage_removeItem "userData";;
     set_location_href "/auth/login").

(** The states the provider can be in: the mount effect runs once on a
    freshly mounted provider, then [login] and [logout] are called in any
    order, each [login] with whatever the API client answers.
    [startup] restricts the browsers the provider may start in and
    [answer] the completions of the API call. *)
Inductive reachable_when (startup : option Window -> Prop)
    (answer : Completion JsVal -> Prop) : World -> Prop :=
| reach_initialize win :
    startup win ->
    reachable_when startup answer (initialize (mount win)).2
| reach_login api email password w :
    answer (api email password) ->
    reachable_when startup answer w ->
    reachable_when startup answer (login api email password w).2
| reach_logout w :
    reachable_when startup answer w ->
    reachable_when startup answer (logout w).2.

(** Every startup, every answer. *)
Definition reachable : World -> Prop :=
  reachable_when (fun _ => True) (fun _ => True).

End AuthProvider.

(** A value of React state is present when it is neither [null] nor
    [undefined]. *)
Definition present (v : JsVal) : Prop := nullish v = false.

(** The two shapes of a session. *)
Definition Authenticated (w : World) : Prop :=
  present (token w) /\ present (user w).
Definition Anonymous (w : World) : Prop :=
  token w = JNull /\ user w = JNull.

(** The invariant of the session: the token is there exactly when the
    identity is. *)
Definition both_or_neither (w : World) : Prop :=
  present (token w) <-> present (user w).

(** The answers of the API client from which [login] takes nothing: the call
    threw, there is no response object, or [success] or [data] is falsy. *)
Inductive refused : Completion JsVal -> Prop :=
| refused_throw e : refused (Throw e)
| refused_nullish r : nullish r = true -> refused (Normal r)
| refused_success r s :
    get r "success" = Normal s -> truthy s = false -> refused (Normal r)
| refused_data r d :
    get r "data" = Normal d -> truthy d = false -> refused (Normal r).

(** The answers that carry a session: [success] and [data] are truthy, and
    [data] holds a token and a user record. *)
Definition granted (c : Completion JsVal) : Prop :=
  exists r s d t u,
    c = Normal r
    /\ get r "success" = Normal s /\ truthy s = true
    /\ get r "data" = Normal d /\ truthy d = true
    /\ get d "accessToken" = Normal t /\ present t
    /\ get d "user" = Normal u /\ present u.

(** Counting in a trace. *)
Definition clears_loading (e : Event) : bool :=
  match e with SetLoading false => true | _ => false end.

Definition navigates (e : Event) : bool :=
  match e with Navigate _ => true | _ => false end.

Definition times (p : Event -> bool) (evs : list Event) : nat :=
  length (List.filter p evs).

(** The response of the spec's login example and the identity [login] makes
    of it. *)
Definition sample_response : JsVal :=
  JObj [("success", JBool true);
        ("data", JObj [("accessToken", JStr "T");
                       ("user", JObj [("id", JStr "1"); ("name", JStr "A");
                                      ("email", JStr "a@x.com");
                                      ("role", JStr "user")])])].

Definition sample_identity : JsVal :=
  JObj [("id", JStr "1"); ("name", JStr "A"); ("email", JStr "a@x.com");
        ("phone", JUndefined); ("role", JStr "user");
        ("startDate", JUndefined)].

(** [useContext(AuthContext)]: the value of the nearest [AuthContext.Provider]
    above the calling component ([providers] lists them innermost first), or
    the default given to [createContext], which is [undefined] (line 23). *)
Definition useContext {AuthContextType : Type} (providers : list AuthContextType)
  : option AuthContextType :=
  head providers.

(** [useAuth] (lines 25-31). *)
Definition useAuth {AuthContextType : Type} (providers : list AuthContextType)
  : Completion AuthContextType :=
  match useContext providers with
  | None => Throw (Error "useAuth must be used within an AuthProvider")
  | Some context => Normal context
  end.

(** ** An executable JSON fragment

    The theorems below hold for every [JSON_parse] and [JSON_stringify].
    To run the model on concrete storage contents, [json_parse] and
    [json_stringify] implement the built-ins on the fragment the examples
    use: objects, arrays, strings with the two-character escapes, integers,
    [true], [false], [null].  Fractions, exponents and [\u] escapes are
    outside the fragment and no example contains one. *)

Definition is_whitespace (c : ascii) : bool :=
  match c with
  | " "%char | "009"%char | "010"%char | "013"%char => true
  | _ => false
  end.

Fixpoint skip_whitespace (s : string) : string :=
  match s with
  | String c rest => if is_whitespace c then skip_whitespace rest else s
  | EmptyString => s
  end.

Fixpoint strip_prefix (p s : string) : option string :=
  match p, s with
  | EmptyString, _ => Some s
  | String a p', String b s' => if Ascii.eqb a b then strip_prefix p' s' else None
  | String _ _, EmptyString => None
  end.

Definition unescape (c : ascii) : option ascii :=
  match c with
  | "034"%char => Some "034"%char
  | "\"%char => Some "\"%char
  | "/"%char => Some "/"%char
  | "b"%char => Some "008"%char
  | "f"%char => Some "012"%char
  | "n"%char => Some "010"%char
  | "r"%char => Some "013"%char
  | "t"%char => Some "009"%char
  | _ => None
  end.

(** The characters of a string literal after its opening quote, and the text
    after its closing quote. *)
Fixpoint parse_chars (s : string) : option (string * string) :=
  match s with
  | EmptyString => None
  | String c rest =>
      if Ascii.eqb c "034" then Some (EmptyString, rest)
      else if Ascii.eqb c "\" then
        match rest with
        | String e rest' =>
            match unescape e, parse_chars rest' with
            | Some c', Some (str, after) => Some (String c' str, after)
            | _, _ => None
            end
        | EmptyString => None
        end
      else if (nat_of_ascii c <? 32)%nat then None
      else
        match parse_chars rest with
        | Some (str, after) => Some (String c str, after)
        | None => None
        end
  end.

Definition digit (c : ascii) : option Z :=
  let n := nat_of_ascii c in
  if ((48 <=? n) && (n <=? 57))%nat then Some (Z.of_nat n - 48) else None.

Fixpoint parse_digits (acc : Z) (s : string) : Z * string :=
  match s with
  | String c rest =>
      match digit c with
      | Some d => parse_digits (10 * acc + d) rest
      | None => (acc, s)
      end
  | EmptyString => (acc, s)
  end.

(** An integer literal: no leading zero, no fraction, no exponent. *)
Definition parse_int (s : string) : option (Z * string) :=
  let '(negative, s) :=
    match s with
    | String "-"%char rest => (true, rest)
    | _ => (false, s)
    end in
  match s with
  | String c rest =>
      match digit c with
      | Some d =>
          let '(n, after) :=
            if d =? 0 then (0, rest) else parse_digits d rest in
          match after with
          | String c' _ =>
              if bool_decide (is_Some (digit c')) || Ascii.eqb c' "."
                 || Ascii.eqb c' "e" || Ascii.eqb c' "E"
              then None
              else Some (if negative then - n else n, after)
          | EmptyString => Some (if negative then - n else n, after)
          end
      | None => None
      end
  | EmptyString => None
  end.

(** A repeated key keeps its first position and takes the last value. *)
Fixpoint put (k : string) (v : JsVal) (props : list (string * JsVal))
  : list (string * JsVal) :=
  match props with
  | [] => [(k, v)]
  | (k', v') :: rest =>
      if String.eqb k k' then (k, v) :: rest else (k', v') :: put k v rest
  end.

Fixpoint parse_value (fuel : nat) (s : string) : option (JsVal * string) :=
  match fuel with
  | O => None
  | S fuel =>
      match skip_whitespace s with
      | String "n"%char _ as t => pair JNull <$> strip_prefix "null" t
      | String "t"%char _ as t => pair (JBool true) <$> strip_prefix "true" t
      | String "f"%char _ as t => pair (JBool false) <$> strip_prefix "false" t
      | String "034"%char rest =>
          '(str, after) ← parse_chars rest; Some (JStr str, after)
      | String "["%char rest =>
          match skip_whitespace rest with
          | String "]"%char after => Some (JArr [], after)
          | _ => '(items, after) ← parse_elements fuel rest;
                 Some (JArr items, after)
          end
      | String "{"%char rest =>
          match skip_whitespace rest with
          | String "}"%char after => Some (JObj [], after)
          | _ => '(members, after) ← parse_members fuel rest;
                 Some (JObj (foldl (fun props m => put m.1 m.2 props) [] members),
                       after)
          end
      | t => '(n, after) ← parse_int t; Some (JNum n, after)
      end
  end
with parse_elements (fuel : nat) (s : string) : option (list JsVal * string) :=
  match fuel with
  | O => None
  | S fuel =>
      '(v, after) ← parse_value fuel s;
      match skip_whitespace after with
      | String ","%char rest =>
          '(vs, after') ← parse_elements fuel rest; Some (v :: vs, after')
      | String "]"%char rest => Some ([v], rest)
      | _ => None
      end
  end
with parse_members (fuel : nat) (s : string)
  : option (list (string * JsVal) * string) :=
  match fuel with
  | O => None
  | S fuel =>
      match skip_whitespace s with
      | String "034"%char rest =>
          '(k, after) ← parse_chars rest;
          match skip_whitespace after with
          | String ":"%char rest' =>
              '(v, after') ← parse_value fuel rest';
              match skip_whitespace after' with
              | String ","%char rest'' =>
                  '(ms, after'') ← parse_members fuel rest'';
                  Some ((k, v) :: ms, after'')
              | String "}"%char rest'' => Some ([(k, v)], rest'')
              | _ => None
              end
          | _ => None
          end
      | _ => None
      end
  end.

Definition json_parse (s : string) : Completion JsVal :=
  match parse_value (2 * String.length s + 2) s with
  | Some (v, after) =>
      match skip_whitespace after with
      | EmptyString => Normal v
      | String _ _ => Throw SyntaxError
      end
  | None => Throw SyntaxError
  end.

Definition hex_digit (n : nat) : ascii :=
  ascii_of_nat (if (n <? 10)%nat then 48 + n else 87 + n).

Definition escape (c : ascii) : string :=
  match c with
  | "034"%char => String "\" (String "034" EmptyString)
  | "\"%char => "\\"
  | "008"%char => "\b"
  | "012"%char => "\f"
  | "010"%char => "\n"
  | "013"%char => "\r"
  | "009"%char => "\t"
  | _ =>
      let n := nat_of_ascii c in
      if (n <? 32)%nat
      then "\u00" +:+ String (hex_digit (n / 16)) (String (hex_digit (n mod 16)) EmptyString)
      else String c EmptyString
  end.

Fixpoint escape_chars (s : string) : string :=
  match s with
  | EmptyString => EmptyString
  | String c rest => escape c +:+ escape_chars rest
  end.

Definition quote (s : string) : string :=
  String "034" (escape_chars s +:+ String "034" EmptyString).

(** The text of a value, or [None] where [JSON.stringify] gives [undefined]:
    a property holding [undefined] is left out of its object, an element
    holding it is written [null]. *)
Fixpoint stringify (v : JsVal) : option string :=
  match v with
  | JUndefined => None
  | JNull => Some "null"
  | JBool true => Some "true"
  | JBool false => Some "false"
  | JNum n => Some (pretty n)
  | JStr s => Some (quote s)
  | JArr items =>
      Some ("[" +:+ String.concat ","
                      (map (fun i => default "null" (stringify i)) items)
            +:+ "]")
  | JObj props =>
      Some ("{" +:+ String.concat ","
                      (omap (fun p => (fun t => quote p.1 +:+ ":" +:+ t)
                                        <$> stringify p.2) props)
            +:+ "}")
  end.

Definition json_stringify (v : JsVal) : string :=
  default "undefined" (stringify v).

(** JSON text is written below with ['] for the double quote. *)
Fixpoint text (s : string) : string :=
  match s with
  | EmptyString => EmptyString
  | String c rest => String (if Ascii.eqb c "'" then "034"%char else c) (text rest)
  end.

(** ** The admin dashboard: [loadDashboardData] *)

Module AdminDashboard.

(** The React state of [AdminDashboard] (lines 43-46); the three
    collections are arrays. *)
Record Dashboard : Type := mkDashboard {
  employees : JsVal;
  allTasks : JsVal;
  forms : JsVal;
  loading : bool
}.

(** [useState([])] three times, [useState(false)]. *)
Definition mounted : Dashboard :=
  {| employees := JArr []; allTasks := JArr []; forms := JArr [];
     loading := false |}.

Definition setEmployees (v : JsVal) : Stmt Dashboard unit :=
  modify (fun d =>
    {| employees := v; allTasks := allTasks d; forms := forms d;
       loading := loading d |}).

Definition setAllTasks (v : JsVal) : Stmt Dashboard unit :=
  modify (fun d =>
    {| employees := employees d; allTasks := v; forms := forms d;
       loading := loading d |}).

Definition setForms (v : JsVal) : Stmt Dashboard unit :=
  modify (fun d =>
    {| employees := employees d; allTasks := allTasks d; forms := v;
       loading := loading d |}).

Definition setLoading (b : bool) : Stmt Dashboard unit :=
  modify (fun d =>
    {| employees := employees d; allTasks := allTasks d; forms := forms d;
       loading := b |}).

(** The callback of [usersResponse.data.map] (lines 65-73). *)
Definition user_view (u : JsVal) : Completion JsVal :=
  id ← id_of u;
  name ← get u "name";
  email ← get u "email";
  phone ← get u "phone";
  role ← get u "role";
  startDate ← get u "startDate";
  department ← get u "department";
  Normal (JObj [("id", id); ("name", name); ("email", email);
                ("phone", phone); ("role", role);
                ("startDate", startDate); ("department", department)]).

(** The callback of [tasksResponse.data.map] (lines 79-88). *)
Definition task_view (t : JsVal) : Completion JsVal :=
  id ← id_of t;
  title ← get t "title";
  description ← get t "description";
  status ← get t "status";
  dueDate ← get t "dueDate";
  type ← get t "type";
  category ← (if truthy type then Normal type else get t "category");
  priority ← get t "priority";
  assignedTo ← get t "assignedTo";
  Normal (JObj [("id", id); ("title", title); ("description", description);
                ("status", status); ("dueDate", dueDate);
                ("category", category);
                ("priority", js_or priority (JStr "medium"));
                ("userId", assignedTo)]).

(** The callback of [formsData.map] (lines 96-103). *)
Definition form_view (f : JsVal) : Completion JsVal :=
  id ← id_of f;
  title ← get f "title";
  description ← get f "description";
  assignedTo ← get f "assignedTo";
  fields ← get f "fields";
  createdAt ← get f "createdAt";
  Normal (JObj [("id", id); ("title", title); ("description", description);
                ("assignedTo", assignedTo);
                ("fields", js_or fields (JArr []));
                ("createdAt", createdAt)]).

(** [formsResponse.data.forms || formsResponse.data] (line 93). *)
Definition forms_of (data : JsVal) : Completion JsVal :=
  inner ← get data "forms";
  Normal (js_or inner data).

(** [await Promise.all(requests)]: the array of the results when every
    request is fulfilled, a rejection as soon as one is rejected.  Which
    rejection is reported when several requests fail depends on their
    timing; the caller only logs it, and the first in the array is taken
    here. *)
Fixpoint Promise_all (requests : list (Completion JsVal))
  : Completion (list JsVal) :=
  match requests with
  | [] => Normal []
  | r :: rest => v ← r; vs ← Promise_all rest; Normal (v :: vs)
  end.

Open Scope stmt_scope.

(** One [if (response.success && response.data) { ... set(...) }] block:
    [select] picks the array out of the data, [view] is the [map]
    callback. *)
Definition take (response : JsVal) (select : JsVal -> Completion JsVal)
    (view : JsVal -> Completion JsVal) (set : JsVal -> Stmt Dashboard unit)
  : Stmt Dashboard unit :=
  accepted <- eval (success_and_data response);;
  when accepted
    (data <- eval (get response "data");;
     records <- eval (select data);;
     views <- eval (array_map view records);;
     set views).

(** [loadDashboardData] (lines 54-123).  The three arguments are the
    completions of [userAPI.getAllUsers], [taskAPI.getAllTasks] and
    [formAPI.getAllForms].  The [console.log] lines of the forms block only
    read the array just built and are left out. *)
Definition loadDashboardData (getAllUsers getAllTasks getAllForms : Completion JsVal)
  : Stmt Dashboard unit :=
  setLoading true;;
  try_finally
    (try_catch
       (responses <- eval (Promise_all [getAllUsers; getAllTasks; getAllForms]);;
        let usersResponse := default JUndefined (responses !! 0%nat) in
        let tasksResponse := default JUndefined (responses !! 1%nat) in
        let formsResponse := default JUndefined (responses !! 2%nat) in
        take usersResponse Normal user_view setEmployees;;
        take tasksResponse Normal task_view setAllTasks;;
        take formsResponse forms_of form_view setForms)
       (fun error =>
          setEmployees (JArr []);;
          setAllTasks (JArr []);;
          setForms (JArr [])))
    (setLoading false).

(** A response that reports a failure: [response.success && response.data]
    is falsy. *)
Definition declined (response : JsVal) : Prop :=
  success_and_data response = Normal false.

(** A response that delivers [views]: the guard holds and its records map
    to [views] without an exception. *)
Definition delivers (select view : JsVal -> Completion JsVal)
    (response views : JsVal) : Prop :=
  success_and_data response = Normal true
  /\ exists data records,
       get response "data" = Normal data
       /\ select data = Normal records
       /\ array_map view records = Normal views.

(** What one response makes of its collection. *)
Definition settled (select view : JsVal -> Completion JsVal)
    (response old new : JsVal) : Prop :=
  (declined response /\ new = old) \/ delivers select view response new.

End AdminDashboard.

(** ** Derived statistics: [@/lib/onboardingUtils] *)

Module OnboardingUtils.

(** A task counts as done when its [status] is ['completed'], the value the
    task pages count as finished. *)
Definition is_done (task : JsVal) : bool :=
  match get task "status" with
  | Normal (JStr s) => String.eqb s "completed"
  | _ => false
  end.

(** Division as a step that can go wrong: no result on a zero divisor. *)
Definition divide (a b : Z) : option Z :=
  if b =? 0 then None else Some (a / b).

(** Modelled from the spec: the body of [calculateOnboardingProgress] is
    in [@/lib/onboardingUtils], which is not among the sources; only its
    call sites in the dashboard are.  Spec 4.2: it computes a percentage
    of done items over a task collection, and division by zero must yield
    a defined result, 0 percent, never a fault.  The rounding is not fixed
    by the spec; the percentage is rounded to the nearest integer.  [None]
    stands for a fault or an undefined result. *)
Definition calculateOnboardingProgress (tasks : list JsVal) : option Z :=
  let total := Z.of_nat (length tasks) in
  let completed := Z.of_nat (length (filter (fun t => is_done t = true) tasks)) in
  if total =? 0 then Some 0
  else divide (200 * completed + total) (2 * total).

End OnboardingUtils.

(** ** Concrete browsers and answers for the examples *)

Definition store (items : list (string * string)) : Window :=
  {| localStorage := list_to_map items; location_href := "/" |}.

(** A stored identity that is not JSON. *)
Definition corrupt_store : Window :=
  store [("authToken", "T"); ("userData", "{bad")].

(** What a successful login of the sample user leaves behind. *)
Definition sample_store : Window :=
  store [("authToken", "T");
         ("userData",
          text "{'id':'1','name':'A','email':'a@x.com','role':'user'}")].

(** Only the token survived. *)
Definition token_only_store : Window := store [("authToken", "T")].

Definition empty_store : Window := store [].

(** [{success: false, error: 'Invalid credentials'}] *)
Definition failure_response : JsVal :=
  JObj [("success", JBool false); ("error", JStr "Invalid credentials")].

(** [{success: true, data: {accessToken: 'T'}}]: a token and no user. *)
Definition partial_response : JsVal :=
  JObj [("success", JBool true); ("data", JObj [("accessToken", JStr "T")])].

Definition answering (response : JsVal) : string -> string -> Completion JsVal :=
  fun _ _ => Normal response.

(** The session an anonymous visitor has once the provider is mounted. *)
Definition visitor : World :=
  (initialize json_parse (mount (Some empty_store))).2.

(** The session of the sample user after a successful login. *)
Definition member : World :=
  (login json_stringify (answering sample_response)
     "a@x.com" "secret" visitor).2.

(** A startup from which the session can be restored: when both keys hold
    a non-empty string, the stored identity parses to a value that is
    present. *)
Definition restorable (JSON_parse : string -> Completion JsVal)
    (win : option Window) : Prop :=
  forall b t u,
    win = Some b ->
    localStorage b !! "authToken" = Some t ->
    localStorage b !! "userData" = Some u ->
    truthy_item (Some t) && truthy_item (Some u) = true ->
    exists v, JSON_parse u = Normal v /\ present v.

Module DashboardExamples.
Import AdminDashboard.

(** [{success: true, data: [{_id: 't1', title: 'Read the handbook',
    status: 'pending', assignedTo: 'u1'}]}] *)
Definition tasks_response : JsVal :=
  JObj [("success", JBool true);
        ("data", JArr [JObj [("_id", JStr "t1");
                             ("title", JStr "Read the handbook");
                             ("status", JStr "pending");
                             ("assignedTo", JStr "u1")]])].

Definition tasks_views : JsVal :=
  JArr [JObj [("id", JStr "t1"); ("title", JStr "Read the handbook");
              ("description", JUndefined); ("status", JStr "pending");
              ("dueDate", JUndefined); ("category", JUndefined);
              ("priority", JStr "medium"); ("userId", JStr "u1")]].

(** [{success: true, data: {forms: []}}] *)
Definition forms_response : JsVal :=
  JObj [("success", JBool true); ("data", JObj [("forms", JArr [])])].

(** [{success: false, error: 'Forbidden'}] *)
Definition users_failure : JsVal :=
  JObj [("success", JBool false); ("error", JStr "Forbidden")].

End DashboardExamples.


(** ** Views of the session: [Layout] and the home page *)

(** [a === b].  Primitives are compared by value.  Arrays and objects are
    compared by identity; the places that use [===] compare values that come
    from different responses or a value with a string literal, never one
    object with itself, so two of them are never equal here. *)
Definition strict_equal (a b : JsVal) : bool :=
  match a, b with
  | JUndefined, JUndefined => true
  | JNull, JNull => true
  | JBool x, JBool y => Bool.eqb x y
  | JNum x, JNum y => x =? y
  | JStr x, JStr y => String.eqb x y
  | _, _ => false
  end.

(** What [Layout] renders around its children. *)
Inductive Frame : Type :=
| Bare
| WithSidebar.

(** [Layout] ([src/components/Layout.tsx], lines 11-28): the context of
    [useAuth], then the sidebar when [user] is truthy. *)
Definition Layout (providers : list World) : Completion Frame :=
  context ← useAuth providers;
  Normal (if truthy (user context) then WithSidebar else Bare).

(** The effect of [HomeContent] (the home page, lines 552-562): the routes
    handed to [router.push], given the [user] and [loading] of the
    context. *)
Definition home_effect (user : JsVal) (loading : bool)
  : Completion (list string) :=
  if negb loading then
    if negb (truthy user) then Normal ["/auth/login"]
    else
      role ← get user "role";
      if strict_equal role (JStr "admin") then Normal ["/admin/dashboard"]
      else Normal ["/dashboard"]
  else Normal [].

(** [HomeContent] (lines 548-576): [useAuth], then the effect. *)
Definition HomeContent (providers : list World) : Completion (list string) :=
  context ← useAuth providers;
  home_effect (user context) (loading context).

(** [v?.k]: [undefined] on [null] and [undefined], the property
    otherwise. *)
Definition optional_get (v : JsVal) (k : string) : Completion JsVal :=
  if nullish v then Normal JUndefined else get v k.

(** [user?.role === 'admin']: the test under which the effects of the admin
    dashboard (lines 48-52) and of the task page (lines 46-50) load their
    data, and without which the task page renders [Access Denied]
    (line 262). *)
Definition is_admin (user : JsVal) : Completion bool :=
  role ← optional_get user "role";
  Normal (strict_equal role (JStr "admin")).

(** A browser that also keeps a key of another feature. *)
Definition themed_store : Window :=
  store [("theme", "dark"); ("authToken", "T");
         ("userData",
          text "{'id':'1','name':'A','email':'a@x.com','role':'user'}")].

(** The provider started in [win], and nowhere else. *)
Definition started_in (win : Window) (startup : option Window) : Prop :=
  startup = Some win.

(** [{success: true, data: {accessToken: 'T', user: {_id: '9', name: 'Root',
    role: 'admin'}}}] *)
Definition admin_response : JsVal :=
  JObj [("success", JBool true);
        ("data", JObj [("accessToken", JStr "T");
                       ("user", JObj [("_id", JStr "9"); ("name", JStr "Root");
                                      ("role", JStr "admin")])])].

(** ** The admin dashboard: statistics and the shape of its state *)

Module DashboardStats.
Import AdminDashboard.

(** [Array.prototype.filter] with a callback that may throw: the elements
    are visited in order and the first exception leaves the loop. *)
Fixpoint filter_elements (keep : JsVal -> Completion bool)
    (items : list JsVal) : Completion (list JsVal) :=
  match items with
  | [] => Normal []
  | i :: rest =>
      b ← keep i;
      kept ← filter_elements keep rest;
      Normal (if b : bool then i :: kept else kept)
  end.

(** The elements of a value used as an array: [a.filter] and [a.map] are
    not functions on anything else. *)
Definition elements_of (a : JsVal) : Completion (list JsVal) :=
  match a with
  | JArr items => Normal items
  | _ => Throw TypeError
  end.

(** What [getEmployeeStats] returns. *)
Record EmployeeStats : Type := mkEmployeeStats {
  totalEmployees : nat;
  activeEmployees : nat;
  completedEmployees : nat
}.

Section Stats.

(** [calculateOnboardingProgress] is imported from [@/lib/onboardingUtils];
    the statistics are modelled over whatever number it returns, [None]
    standing for [NaN]. *)
Variable calculateOnboardingProgress : list JsVal -> option Z.

(** [allTasks.filter((task) => task.userId === emp.id)] (lines 128, 134). *)
Definition tasks_of (tasks : list JsVal) (emp : JsVal)
  : Completion (list JsVal) :=
  filter_elements
    (fun task =>
       userId ← get task "userId";
       id ← get emp "id";
       Normal (strict_equal userId id))
    tasks.

(** [progress > 0 && progress < 100] (line 130). *)
Definition is_active (progress : option Z) : bool :=
  match progress with
  | Some p => (0 <? p) && (p <? 100)
  | None => false
  end.

(** [progress === 100] (line 136). *)
Definition is_completed (progress : option Z) : bool :=
  match progress with
  | Some p => p =? 100
  | None => false
  end.

(** [getEmployeeStats] (lines 125-140), on the state [d]. *)
Definition getEmployeeStats (d : Dashboard) : Completion EmployeeStats :=
  emps ← elements_of (employees d);
  active ←
    filter_elements
      (fun emp =>
         tasks ← elements_of (allTasks d);
         empTasks ← tasks_of tasks emp;
         Normal (is_active (calculateOnboardingProgress empTasks)))
      emps;
  completed ←
    filter_elements
      (fun emp =>
         tasks ← elements_of (allTasks d);
         empTasks ← tasks_of tasks emp;
         Normal (is_completed (calculateOnboardingProgress empTasks)))
      emps;
  Normal {| totalEmployees := length emps;
            activeEmployees := length active;
            completedEmployees := length completed |}.

End Stats.

(** The shape the three collections are kept in: arrays of objects, a task
    with a truthy [priority], a form with truthy [fields]. *)
Definition is_object (v : JsVal) : Prop := exists props, v = JObj props.

Definition has_truthy (k : string) (v : JsVal) : Prop :=
  is_object v /\ exists x, get v k = Normal x /\ truthy x = true.

Definition array_of (P : JsVal -> Prop) (a : JsVal) : Prop :=
  exists items, a = JArr items /\ Forall P items.

Definition well_formed (d : Dashboard) : Prop :=
  array_of is_object (employees d)
  /\ array_of (has_truthy "priority") (allTasks d)
  /\ array_of (has_truthy "fields") (forms d).

(** The state with every collection empty. *)
Definition emptied (d : Dashboard) : Prop :=
  employees d = JArr [] /\ allTasks d = JArr [] /\ forms d = JArr [].

(** A dashboard with two employees and three tasks. *)
Definition staffed : Dashboard :=
  {| employees :=
       JArr [JObj [("id", JStr "u1"); ("name", JStr "Ann")];
             JObj [("id", JStr "u2"); ("name", JStr "Bob")]];
     allTasks :=
       JArr [JObj [("id", JStr "t1"); ("status", JStr "completed");
                   ("priority", JStr "high"); ("userId", JStr "u1")];
             JObj [("id", JStr "t2"); ("status", JStr "pending");
                   ("priority", JStr "medium"); ("userId", JStr "u1")];
             JObj [("id", JStr "t3"); ("status", JStr "completed");
                   ("priority", JStr "low"); ("userId", JStr "u2")]];
     forms := JArr [];
     loading := false |}.

End DashboardStats.

(** ** The task management page: choosing the employees of a new task *)

Module AdminTasksPage.

(** [interface Employee] (lines 21-28) and the form of the create dialog
    (lines 36-42), at the types the page declares for them.  A record that
    [loadData] built from an API answer may lack a field its type declares;
    the search over such records is [AdminTasksSearch] below. *)
Record Employee : Type := mkEmployee {
  id : string;
  name : string;
  email : string;
  role : string;
  startDate : string;
  department : option string
}.

Record FormData : Type := mkFormData {
  title : string;
  description : string;
  dueDate : string;
  assignedTo : list string;
  picture : string
}.

(** [interface Task] (lines 11-19); [userId] is optional and is a string or
    an array of strings.  Its fields carry a prefix here because the form
    has fields of the same names. *)
Inductive Assignee : Type :=
| OneUser (userId : string)
| ManyUsers (userIds : list string).

Record Task : Type := mkTask {
  task_id : string;
  task_title : string;
  task_description : string;
  task_status : string;
  task_dueDate : string;
  task_userId : option Assignee;
  task_picture : option string
}.

(** [{ ...prev, assignedTo: ids }] *)
Definition with_assignedTo (prev : FormData) (ids : list string) : FormData :=
  {| title := title prev; description := description prev;
     dueDate := dueDate prev; assignedTo := ids; picture := picture prev |}.

(** [ids.includes(x)] on an array of strings. *)
Definition includes (ids : list string) (x : string) : bool :=
  bool_decide (x ∈ ids).

(** [s.includes(part)] on strings: [part] occurs somewhere in [s]. *)
Fixpoint string_includes (s part : string) : bool :=
  if String.prefix part s then true
  else
    match s with
    | String _ rest => string_includes rest part
    | EmptyString => false
    end.

(** [toLowerCase] on ASCII letters, for the examples. *)
Definition lower_ascii (c : ascii) : ascii :=
  let n := nat_of_ascii c in
  if ((65 <=? n) && (n <=? 90))%nat then ascii_of_nat (n + 32) else c.

Fixpoint lower (s : string) : string :=
  match s with
  | EmptyString => EmptyString
  | String c rest => String (lower_ascii c) (lower rest)
  end.

Section Search.

(** [String.prototype.toLowerCase] is a parameter. *)
Variable toLowerCase : string -> string.

(** The second filter of [filteredEmployees] (lines 56-60); with no
    department, [emp.department?.toLowerCase()...] is [undefined], which is
    falsy. *)
Definition matches (searchTerm : string) (emp : Employee) : bool :=
  string_includes (toLowerCase (name emp)) (toLowerCase searchTerm)
  || string_includes (toLowerCase (email emp)) (toLowerCase searchTerm)
  || match department emp with
     | Some dep =>
         string_includes (toLowerCase dep) (toLowerCase searchTerm)
     | None => false
     end.

(** [filteredEmployees] (lines 53-60) over employees that are what their
    type says. *)
Definition filteredEmployees (employees : list Employee)
    (searchTerm : string) : list Employee :=
  List.filter (matches searchTerm)
    (List.filter (fun emp => String.eqb (role emp) "user") employees).

(** [displayedEmployees] (line 62); [slice(0, 5)] keeps the first five. *)
Definition displayedEmployees (employees : list Employee)
    (searchTerm : string) (showAllEmployees : bool) : list Employee :=
  if showAllEmployees then filteredEmployees employees searchTerm
  else take 5 (filteredEmployees employees searchTerm).

End Search.

(** [allDisplayedSelected] (lines 65-66). *)
Definition allDisplayedSelected (displayed : list Employee)
    (formData : FormData) : bool :=
  (0 <? length displayed)%nat
  && forallb (fun emp => includes (assignedTo formData) (id emp)) displayed.

(** The loop of the select branch (lines 77-82): push every displayed id
    that is not in the array yet. *)
Definition push_missing (ids : list string) (displayed : list Employee)
  : list string :=
  foldl (fun acc emp => if includes acc (id emp) then acc else acc ++ [id emp])
    ids displayed.

(** [handleSelectAll] (lines 69-89).  The state update is run at once, so
    the [prev] of the functional update is the [formData] the handler
    closed over. *)
Definition handleSelectAll (displayed : list Employee) (formData : FormData)
  : FormData :=
  if allDisplayedSelected displayed formData then
    with_assignedTo formData
      (List.filter (fun x => negb (includes (map id displayed) x))
         (assignedTo formData))
  else
    with_assignedTo formData (push_missing (assignedTo formData) displayed).

(** [handleEmployeeToggle] (lines 92-99). *)
Definition handleEmployeeToggle (employeeId : string) (prev : FormData)
  : FormData :=
  with_assignedTo prev
    (if includes (assignedTo prev) employeeId
     then List.filter (fun x => negb (String.eqb x employeeId)) (assignedTo prev)
     else assignedTo prev ++ [employeeId]).

(** The counters of the page header (lines 295-312). *)
Definition count_status (status : string) (tasks : list Task) : nat :=
  length (List.filter (fun t => String.eqb (task_status t) status) tasks).

(** The ids of the [Assigned To] column (line 210):
    [Array.isArray(row.userId) ? row.userId : (row.userId ? [row.userId] : [])]. *)
Definition assignedIds (row : Task) : list string :=
  match task_userId row with
  | Some (ManyUsers ids) => ids
  | Some (OneUser EmptyString) => []
  | Some (OneUser userId) => [userId]
  | None => []
  end.

(** [employees.find(emp => emp.id === id)] *)
Definition find_employee (employees : list Employee) (x : string)
  : option Employee :=
  List.find (fun emp => String.eqb (id emp) x) employees.

(** [assignedEmployees] (line 211): the employees found, the misses
    filtered out by [filter(Boolean)]. *)
Definition assignedEmployees (employees : list Employee) (row : Task)
  : list Employee :=
  omap (find_employee employees) (assignedIds row).

(** What the column shows (lines 213-226): the names, or [Unassigned]. *)
Definition assigned_column (employees : list Employee) (row : Task)
  : list string :=
  match assignedEmployees employees row with
  | [] => ["Unassigned"]
  | found => map name found
  end.

(** Three employees and an administrator. *)
Definition ann : Employee := mkEmployee "u1" "Ann" "ann@x.com" "user" "2024-01-01" (Some "Sales").
Definition bob : Employee := mkEmployee "u2" "Bob" "bob@x.com" "user" "2024-02-01" None.
Definition cy : Employee := mkEmployee "u3" "Cy" "cy@x.com" "user" "2024-03-01" (Some "Legal").
Definition root : Employee := mkEmployee "a1" "Root" "root@x.com" "admin" "2023-01-01" None.

Definition blank : FormData := mkFormData EmptyString EmptyString EmptyString [] EmptyString.

End AdminTasksPage.

(** ** The task management page: loading and creating tasks *)

Module AdminTasksData.
Import AdminTasksPage.

(** The React state of [AdminTasksPage] (lines 31-44), and the messages
    shown by [alert], oldest first.  The two collections hold what the API
    client returned, mapped record by record. *)
Record Page : Type := mkPage {
  tasks : JsVal;
  employees : JsVal;
  isCreateModalOpen : bool;
  loading : bool;
  formData : FormData;
  searchTerm : string;
  showAllEmployees : bool;
  alerts : list string
}.

Definition setTasks (v : JsVal) : Stmt Page unit :=
  modify (fun p =>
    {| tasks := v; employees := employees p;
       isCreateModalOpen := isCreateModalOpen p; loading := loading p;
       formData := formData p; searchTerm := searchTerm p;
       showAllEmployees := showAllEmployees p; alerts := alerts p |}).

Definition setEmployees (v : JsVal) : Stmt Page unit :=
  modify (fun p =>
    {| tasks := tasks p; employees := v;
       isCreateModalOpen := isCreateModalOpen p; loading := loading p;
       formData := formData p; searchTerm := searchTerm p;
       showAllEmployees := showAllEmployees p; alerts := alerts p |}).

Definition setIsCreateModalOpen (b : bool) : Stmt Page unit :=
  modify (fun p =>
    {| tasks := tasks p; employees := employees p;
       isCreateModalOpen := b; loading := loading p;
       formData := formData p; searchTerm := searchTerm p;
       showAllEmployees := showAllEmployees p; alerts := alerts p |}).

Definition setLoading (b : bool) : Stmt Page unit :=
  modify (fun p =>
    {| tasks := tasks p; employees := employees p;
       isCreateModalOpen := isCreateModalOpen p; loading := b;
       formData := formData p; searchTerm := searchTerm p;
       showAllEmployees := showAllEmployees p; alerts := alerts p |}).

Definition setFormData (f : FormData) : Stmt Page unit :=
  modify (fun p =>
    {| tasks := tasks p; employees := employees p;
       isCreateModalOpen := isCreateModalOpen p; loading := loading p;
       formData := f; searchTerm := searchTerm p;
       showAllEmployees := showAllEmployees p; alerts := alerts p |}).

Definition setSearchTerm (s : string) : Stmt Page unit :=
  modify (fun p =>
    {| tasks := tasks p; employees := employees p;
       isCreateModalOpen := isCreateModalOpen p; loading := loading p;
       formData := formData p; searchTerm := s;
       showAllEmployees := showAllEmployees p; alerts := alerts p |}).

Definition setShowAllEmployees (b : bool) : Stmt Page unit :=
  modify (fun p =>
    {| tasks := tasks p; employees := employees p;
       isCreateModalOpen := isCreateModalOpen p; loading := loading p;
       formData := formData p; searchTerm := searchTerm p;
       showAllEmployees := b; alerts := alerts p |}).

(** [alert(message)] *)
Definition alert (message : string) : Stmt Page unit :=
  modify (fun p =>
    {| tasks := tasks p; employees := employees p;
       isCreateModalOpen := isCreateModalOpen p; loading := loading p;
       formData := formData p; searchTerm := searchTerm p;
       showAllEmployees := showAllEmployees p;
       alerts := alerts p ++ [message] |}).

(** The callback of [tasksResponse.data.map] (lines 125-133). *)
Definition task_record (t : JsVal) : Completion JsVal :=
  id ← id_of t;
  title ← get t "title";
  description ← get t "description";
  status ← get t "status";
  dueDate ← get t "dueDate";
  assignedTo ← get t "assignedTo";
  picture ← get t "picture";
  Normal (JObj [("id", id); ("title", title); ("description", description);
                ("status", status); ("dueDate", dueDate);
                ("userId", assignedTo); ("picture", picture)]).

(** The callback of [usersResponse.data.map] (lines 139-146). *)
Definition employee_record (u : JsVal) : Completion JsVal :=
  id ← id_of u;
  name ← get u "name";
  email ← get u "email";
  role ← get u "role";
  startDate ← get u "startDate";
  department ← get u "department";
  Normal (JObj [("id", id); ("name", name); ("email", email);
                ("role", role); ("startDate", startDate);
                ("department", department)]).

Open Scope stmt_scope.

(** One [if (response.success && response.data) { ... set(...) }] block. *)
Definition store_records (response : JsVal)
    (record : JsVal -> Completion JsVal) (set : JsVal -> Stmt Page unit)
  : Stmt Page unit :=
  accepted <- eval (success_and_data response);;
  when accepted
    (data <- eval (get response "data");;
     records <- eval (array_map record data);;
     set records).

(** [loadData] (lines 115-156).  The arguments are the completions of
    [taskAPI.getAllTasks] and [userAPI.getAllUsers]. *)
Definition loadData (getAllTasks getAllUsers : Completion JsVal)
  : Stmt Page unit :=
  setLoading true;;
  try_finally
    (try_catch
       (responses <- eval (AdminDashboard.Promise_all [getAllTasks; getAllUsers]);;
        let tasksResponse := default JUndefined (responses !! 0%nat) in
        let usersResponse := default JUndefined (responses !! 1%nat) in
        store_records tasksResponse task_record setTasks;;
        store_records usersResponse employee_record setEmployees)
       (fun error =>
          setTasks (JArr []);;
          setEmployees (JArr [])))
    (setLoading false).

(** [handleModalClose] (lines 102-113). *)
Definition handleModalClose : Stmt Page unit :=
  setIsCreateModalOpen false;;
  setSearchTerm EmptyString;;
  setShowAllEmployees false;;
  setFormData blank.

(** [handleCreateTask] (lines 158-179).  [createTask] is the completion of
    [await taskAPI.createTask(...)].  [loadData()] is called without
    [await]: what it does after its requests settle happens once the
    handler has returned.  The model runs it in place, which leads to the
    same final state, since [alert] changes nothing [loadData] reads or
    writes, and [loadData] hands no exception to the handler either way. *)
Definition handleCreateTask (createTask getAllTasks getAllUsers : Completion JsVal)
  : Stmt Page unit :=
  try_catch
    (response <- eval createTask;;
     success <- eval (get response "success");;
     if truthy success then
       handleModalClose;;
       loadData getAllTasks getAllUsers;;
       alert "Task created successfully!"
     else
       error <- eval (get response "error");;
       alert (ToString
                (js_or error (JStr "Error creating task. Please try again."))))
    (fun error => alert "Error creating task. Please try again.").

(** The dialog open on a half-filled form. *)
Definition editing : Page :=
  {| tasks := JArr []; employees := JArr [];
     isCreateModalOpen := true; loading := false;
     formData := mkFormData "Badge" "Get a badge" "2024-05-01T09:00" ["u1"]
                   EmptyString;
     searchTerm := "an"; showAllEmployees := true; alerts := [] |}.

(** [{success: true, data: [{_id: 't1', title: 'Badge', assignedTo: ['u1']}]}] *)
Definition one_task : JsVal :=
  JObj [("success", JBool true);
        ("data", JArr [JObj [("_id", JStr "t1"); ("title", JStr "Badge");
                             ("assignedTo", JArr [JStr "u1"])]])].

(** [{success: false, error: 'Title is required'}] *)
Definition rejected_task : JsVal :=
  JObj [("success", JBool false); ("error", JStr "Title is required")].

(** Whether the answer to [createTask] reports success. *)
Definition creates (createTask : Completion JsVal) : bool :=
  match createTask with
  | Normal response =>
      match get response "success" with
      | Normal success => truthy success
      | Throw _ => false
      end
  | Throw _ => false
  end.

End AdminTasksData.

(** ** Storage that fails

    The statements on [localStorage] above are the ones of a browser whose
    storage works.  Naming [localStorage] throws a [SecurityError] where the
    user has blocked site data, and [setItem] throws a [QuotaExceededError]
    where the storage is full or gives no room (private browsing).  The
    session store is modelled here once more over a storage that may fail;
    on a storage that works it is the session store above. *)

(** How the storage of a browser behaves: [denied] when naming
    [localStorage] throws, and [refuses contents key value] when
    [setItem(key, value)] throws on a storage holding [contents]. *)
Record Storage : Type := mkStorage {
  denied : bool;
  refuses : gmap string string -> string -> string -> bool
}.

Definition working : Storage :=
  {| denied := false; refuses := fun _ _ _ => false |}.

(** Site data is blocked. *)
Definition blocked : Storage :=
  {| denied := true; refuses := fun _ _ _ => false |}.

(** Every write is refused. *)
Definition full : Storage :=
  {| denied := false; refuses := fun _ _ _ => true |}.

(** There is room for the token only: the write of [userData] is
    refused. *)
Definition cramped : Storage :=
  {| denied := false;
     refuses := fun _ key _ => String.eqb key "userData" |}.

(** A statement that names [localStorage]: the [SecurityError] where the
    storage is denied, the statement otherwise.  Without a window the
    statement is the [ReferenceError] it was. *)
Definition on_storage {A} (S : Storage) (m : Stmt World A) : Stmt World A :=
  fun w =>
    match window w with
    | Some _ => if denied S then (Throw (Error "SecurityError"), w) else m w
    | None => m w
    end.

Definition storage_getItem (S : Storage) (key : string)
  : Stmt World (option string) :=
  on_storage S (localStorage_getItem key).

Definition storage_removeItem (S : Storage) (key : string) : Stmt World unit :=
  on_storage S (localStorage_removeItem key).

Definition storage_setItem (S : Storage) (key value : string)
  : Stmt World unit :=
  on_storage S
    (fun w =>
       match window w with
       | Some win =>
           if refuses S (localStorage win) key value
           then (Throw (Error "QuotaExceededError"), w)
           else localStorage_setItem key value w
       | None => localStorage_setItem key value w
       end).

Section AuthProviderOn.

Variable S : Storage.
Variable JSON_parse : string -> Completion JsVal.
Variable JSON_stringify : JsVal -> string.

Open Scope stmt_scope.

(** The mount effect (lines 42-62): the two reads (lines 46-47) are outside
    the [try], the two removals (lines 56-57) are in its [catch]. *)
Definition initialize_on : Stmt World unit :=
  has_window <- typeof_window_defined;;
  when has_window
    (storedToken <- storage_getItem S "authToken";;
     storedUser <- storage_getItem S "userData";;
     when (truthy_item storedToken && truthy_item storedUser)
       (try_catch
          (setToken (item storedToken);;
           parsed <- eval (JSON_parse (ToString (item storedUser)));;
           setUser parsed)
          (fun error =>
             console_error "Error parsing stored user data:";;
             storage_removeItem S "authToken";;
             storage_removeItem S "userData")));;
  setLoading false.

(** The [try] block of [login] (lines 66-95); the two writes (lines 83-91)
    are inside it. *)
Definition login_try_on (authAPI_login : string -> string -> Completion JsVal)
    (email password : string) : Stmt World bool :=
  setLoading true;;
  result <- eval (authAPI_login email password);;
  accepted <- eval (success_and_data result);;
  if accepted then
    data <- eval (get result "data");;
    accessToken <- eval (get data "accessToken");;
    userData <- eval (get data "user");;
    setToken accessToken;;
    record <- eval (user_literal userData);;
    setUser record;;
    has_window <- typeof_window_defined;;
    when has_window
      (storage_setItem S "authToken" (ToString accessToken);;
       stored <- eval (user_literal userData);;
       storage_setItem S "userData" (JSON_stringify stored));;
    ret true
  else ret false.

(** [login] (lines 64-102). *)
Definition login_on (authAPI_login : string -> string -> Completion JsVal)
    (email password : string) : Stmt World bool :=
  try_finally
    (try_catch
       (login_try_on authAPI_login email password)
       (fun error => console_error "Login error:";; ret false))
    (setLoading false).

(** [logout] (lines 104-115); nothing guards its two removals. *)
Definition logout_on : Stmt World unit :=
  setUser JNull;;
  setToken JNull;;
  has_window <- typeof_window_defined;;
  when has_window
    (storage_removeItem S "authToken";;
     storage_removeItem S "userData";;
     set_location_href "/auth/login").

(** The states the provider can be in over the storage [S], from any
    browser and with any answer of the API client. *)
Inductive reachable_on : World -> Prop :=
| reach_on_initialize win :
    reachable_on (initialize_on (mount win)).2
| reach_on_login api email password w :
    reachable_on w ->
    reachable_on (login_on api email password w).2
| reach_on_logout w :
    reachable_on w -> reachable_on (logout_on w).2.

End AuthProviderOn.

(** ** The admin dashboard: a response whose handling throws *)

Module DashboardHandling.
Import AdminDashboard.

(** The handling of a fulfilled response throws: there is no response
    object to read [success] from, or [success] and [data] are truthy and
    picking or mapping the records throws (data that is not an array, a
    record that is null). *)
Definition breaks (select view : JsVal -> Completion JsVal)
    (response : JsVal) : Prop :=
  (exists e, success_and_data response = Throw e)
  \/ (success_and_data response = Normal true
      /\ exists data e,
           get response "data" = Normal data
           /\ select data ≫= array_map view = Throw e).

(** [{success: true, data: 'none'}]: the data is not an array. *)
Definition forms_garbled : JsVal :=
  JObj [("success", JBool true); ("data", JStr "none")].

End DashboardHandling.

(** ** The task management page: the search over the loaded records *)

Module AdminTasksSearch.

(** The employees the page holds are what [loadData] mapped out of the API
    answer, so a field may be missing.  The search is modelled here over
    these records as they are. *)

Section Search.

(** [String.prototype.toLowerCase] is a parameter. *)
Variable toLowerCase : string -> string.

(** [v.toLowerCase()]: the method of a string; on [null] and [undefined]
    the property access is a [TypeError], on any other value
    [v.toLowerCase] is not a function. *)
Definition call_toLowerCase (v : JsVal) : Completion string :=
  match v with
  | JStr s => Normal (toLowerCase s)
  | _ => Throw TypeError
  end.

(** [emp.k.toLowerCase().includes(searchTerm.toLowerCase())] *)
Definition field_includes (emp : JsVal) (k searchTerm : string)
  : Completion bool :=
  field ← get emp k;
  lowered ← call_toLowerCase field;
  Normal (AdminTasksPage.string_includes lowered (toLowerCase searchTerm)).

(** The callback of the second filter (lines 56-60): the three tests joined
    by [||], the last one cut short by [?.] when there is no department. *)
Definition matches (searchTerm : string) (emp : JsVal) : Completion bool :=
  by_name ← field_includes emp "name" searchTerm;
  if by_name : bool then Normal true
  else
    by_email ← field_includes emp "email" searchTerm;
    if by_email : bool then Normal true
    else
      department ← get emp "department";
      if nullish department then Normal false
      else
        lowered ← call_toLowerCase department;
        Normal (AdminTasksPage.string_includes lowered
                  (toLowerCase searchTerm)).

(** The callback of the first filter (line 54): [emp.role === 'user']. *)
Definition is_user (emp : JsVal) : Completion bool :=
  role ← get emp "role";
  Normal (strict_equal role (JStr "user")).

(** [filteredEmployees] (lines 53-60) over the elements of the
    [employees] array. *)
Definition filteredEmployees (employees : list JsVal) (searchTerm : string)
  : Completion (list JsVal) :=
  users ← DashboardStats.filter_elements is_user employees;
  DashboardStats.filter_elements (matches searchTerm) users.

End Search.

(** A field holds a string. *)
Definition has_string (k : string) (emp : JsVal) : Prop :=
  exists s, get emp k = Normal (JStr s).

(** The records with the role [user], in order. *)
Definition users_of (employees : list JsVal) : list JsVal :=
  List.filter
    (fun emp =>
       match get emp "role" with
       | Normal role => strict_equal role (JStr "user")
       | Throw _ => false
       end)
    employees.

(** Three loaded records: an employee, an administrator, and an employee
    the API sent without a name. *)
Definition ann_record : JsVal :=
  JObj [("id", JStr "u1"); ("name", JStr "Ann"); ("email", JStr "ann@x.com");
        ("role", JStr "user"); ("startDate", JStr "2024-01-01");
        ("department", JStr "Sales")].

Definition root_record : JsVal :=
  JObj [("id", JStr "a1"); ("name", JStr "Root");
        ("email", JStr "root@x.com"); ("role", JStr "admin");
        ("startDate", JStr "2023-01-01"); ("department", JUndefined)].

Definition nameless_record : JsVal :=
  JObj [("id", JStr "u7"); ("name", JUndefined); ("email", JStr "x@x.com");
        ("role", JStr "user"); ("startDate", JUndefined);
        ("department", JUndefined)].

End AdminTasksSearch.

(** * Proofs *)

Ltac unfold_stmt :=
  unfold initialize, login, login_try, logout, try_finally, try_catch, when,
    bind, ret, eval, modify, setUser, setToken, setLoading, console_error,
    typeof_window_defined, localStorage_getItem, localStorage_setItem,
    localStorage_removeItem, set_location_href, on_window, emit, mount in *.

(** ** Startup *)

(** Both keys hold a non-empty string and the identity parses: the session
    is the stored pair and the storage is left alone. *)
Lemma initialize_restores JSON_parse win t u v :
  localStorage win !! "authToken" = Some t ->
  localStorage win !! "userData" = Some u ->
  truthy_item (Some t) && truthy_item (Some u) = true ->
  JSON_parse u = Normal v ->
  let r := initialize JSON_parse (mount (Some win)) in
  r.1 = Normal tt /\ token r.2 = JStr t /\ user r.2 = v
  /\ loading r.2 = false /\ window r.2 = Some win.
Proof.
  intros Ht Hu Htr Hp. unfold_stmt. simpl. rewrite Ht, Hu, Htr. simpl.
  rewrite Hp. simpl. by destruct win.
Qed.

(** A stored identity that does not parse: both keys are removed and the
    identity stays [null], but the token set before the parse is kept. *)
Lemma initialize_discards JSON_parse win t u e :
  localStorage win !! "authToken" = Some t ->
  localStorage win !! "userData" = Some u ->
  truthy_item (Some t) && truthy_item (Some u) = true ->
  JSON_parse u = Throw e ->
  let r := initialize JSON_parse (mount (Some win)) in
  r.1 = Normal tt /\ token r.2 = JStr t /\ user r.2 = JNull
  /\ loading r.2 = false
  /\ window r.2 =
     Some {| localStorage :=
               delete "userData" (delete "authToken" (localStorage win));
             location_href := location_href win |}.
Proof.
  intros Ht Hu Htr Hp. unfold_stmt. simpl. rewrite Ht, Hu, Htr. simpl.
  rewrite Hp. simpl. done.
Qed.

Lemma initialize_skips JSON_parse win :
  truthy_item (localStorage win !! "authToken")
  && truthy_item (localStorage win !! "userData") = false ->
  initialize JSON_parse (mount (Some win))
  = (Normal tt,
     {| user := JNull; token := JNull; loading := false;
        window := Some win; events := [SetLoading false] |}).
Proof.
  intros H. unfold_stmt. simpl. rewrite H. simpl. by destruct win.
Qed.

Lemma initialize_no_window JSON_parse :
  initialize JSON_parse (mount None)
  = (Normal tt,
     {| user := JNull; token := JNull; loading := false;
        window := None; events := [SetLoading false] |}).
Proof. reflexivity. Qed.

(** The sample user comes back from what [login] stored. *)
Example initialize_sample_store :
  let r := initialize json_parse (mount (Some sample_store)) in
  token r.2 = JStr "T"
  /\ user r.2 = JObj [("id", JStr "1"); ("name", JStr "A");
                      ("email", JStr "a@x.com"); ("role", JStr "user")]
  /\ window r.2 = Some sample_store.
Proof. repeat split; reflexivity. Qed.

(** C9: when exactly one of the keys [authToken] and [userData] is in
    [localStorage] at startup, the mount effect leaves [token] and [user]
    null and the browser, its storage included, as it found it. *)
Theorem initialize_lone_key JSON_parse win :
  (is_Some (localStorage win !! "authToken")
   /\ localStorage win !! "userData" = None)
  \/ (localStorage win !! "authToken" = None
      /\ is_Some (localStorage win !! "userData")) ->
  let r := initialize JSON_parse (mount (Some win)) in
  r.1 = Normal tt /\ token r.2 = JNull /\ user r.2 = JNull
  /\ window r.2 = Some win.
Proof.
  intros H. rewrite initialize_skips; [done|].
  destruct H as [[_ ->]|[-> _]]; simpl; [apply andb_false_r|done].
Qed.

Lemma initialize_lone_key_witness :
  ((is_Some (localStorage token_only_store !! "authToken")
    /\ localStorage token_only_store !! "userData" = None)
   \/ (localStorage token_only_store !! "authToken" = None
       /\ is_Some (localStorage token_only_store !! "userData")))
  /\ let r := initialize json_parse (mount (Some token_only_store)) in
     r.1 = Normal tt /\ token r.2 = JNull /\ user r.2 = JNull
     /\ window r.2 = Some token_only_store.
Proof.
  assert (is_Some (localStorage token_only_store !! "authToken")
          /\ localStorage token_only_store !! "userData" = None) as H.
  { split; [exists "T"; reflexivity | reflexivity]. }
  split; [left; exact H|].
  apply (initialize_lone_key json_parse token_only_store). left. exact H.
Defined.

(** C2, at the input where the code departs from it: both keys are stored
    and the identity is the text [{bad].  The parse throws, both keys are
    removed and [user] stays null, but the token set before the parse is
    still in the session, which is therefore not anonymous. *)
Theorem initialize_corrupt_identity :
  let r := initialize json_parse (mount (Some corrupt_store)) in
  json_parse "{bad" = Throw SyntaxError
  /\ r.1 = Normal tt
  /\ token r.2 = JStr "T" /\ user r.2 = JNull
  /\ ~ Anonymous r.2
  /\ window r.2 = Some empty_store.
Proof.
  split; [reflexivity|]. split; [reflexivity|]. split; [reflexivity|].
  split; [reflexivity|]. split; [|reflexivity].
  unfold Anonymous. intros [H _]. discriminate H.
Qed.

(** ** Login *)

Lemma refused_not_accepted r :
  refused (Normal r) ->
  success_and_data r = Normal false \/ exists e, success_and_data r = Throw e.
Proof.
  inversion 1 as [|? Hn|? s Hs Hf|? d Hd Hf]; subst; unfold success_and_data.
  - destruct r; try discriminate; simpl; eauto.
  - rewrite Hs. simpl. rewrite Hf. by left.
  - destruct (get r "success") as [s|e] eqn:Hs; simpl; [|eauto].
    destruct (truthy s); [|by left]. rewrite Hd. simpl. rewrite Hf. by left.
Qed.

Lemma granted_accepted r :
  granted (Normal r) -> success_and_data r = Normal true.
Proof.
  intros (r' & s & d & t & u & [= <-] & Hs & Hts & Hd & Htd & _).
  unfold success_and_data. rewrite Hs. simpl. rewrite Hts, Hd. simpl.
  by rewrite Htd.
Qed.

Lemma user_literal_present u :
  present u -> exists props, user_literal u = Normal (JObj props).
Proof.
  unfold present. destruct u; try discriminate; intros _;
    unfold user_literal, id_of; simpl; eauto.
  destruct (truthy _); simpl; eauto.
Qed.

Lemma user_literal_nullish u :
  nullish u = true -> user_literal u = Throw TypeError.
Proof. by destruct u. Qed.

(** [login] always settles to a boolean and leaves [loading] cleared. *)
Lemma login_settles JSON_stringify api email password w :
  exists b w',
    login JSON_stringify api email password w = (Normal b, w')
    /\ loading w' = false.
Proof.
  unfold_stmt. simpl.
  destruct (api email password) as [r|e]; simpl; [|eauto].
  destruct (success_and_data r) as [[|]|e]; simpl; eauto.
  destruct (get r "data") as [d|e]; simpl; [|eauto].
  destruct (get d "accessToken") as [t|e]; simpl; [|eauto].
  destruct (get d "user") as [u|e]; simpl; [|eauto].
  destruct (user_literal u) as [rec|e]; simpl; [|eauto].
  destruct (window w); simpl; eauto.
Qed.

Lemma login_thrown JSON_stringify api email password w err :
  (login_try JSON_stringify api email password w).1 = Throw err ->
  exists w',
    login JSON_stringify api email password w = (Normal false, w')
    /\ loading w' = false.
Proof.
  unfold login, try_finally, try_catch.
  destruct (login_try _ _ _ _ _) as [[b|e] w1]; simpl; [done|].
  intros _. unfold_stmt. simpl. eauto.
Qed.

Lemma login_refused JSON_stringify api email password w :
  refused (api email password) ->
  exists w',
    login JSON_stringify api email password w = (Normal false, w')
    /\ loading w' = false
    /\ user w' = user w /\ token w' = token w /\ window w' = window w.
Proof.
  intros H. unfold_stmt. simpl.
  destruct (api email password) as [r|e]; simpl; [|by eauto 10].
  apply refused_not_accepted in H as [->|[e ->]]; simpl; by eauto 10.
Qed.

Lemma login_granted JSON_stringify api email password w r d t u :
  api email password = Normal r ->
  success_and_data r = Normal true ->
  get r "data" = Normal d ->
  get d "accessToken" = Normal t ->
  get d "user" = Normal u ->
  present u ->
  exists record w',
    user_literal u = Normal record
    /\ login JSON_stringify api email password w = (Normal true, w')
    /\ loading w' = false
    /\ token w' = t /\ user w' = record
    /\ window w' =
       (fun win => {| localStorage :=
                        <["userData" := JSON_stringify record]>
                          (<["authToken" := ToString t]> (localStorage win));
                      location_href := location_href win |}) <$> window w.
Proof.
  intros Ha Hs Hd Ht Hu Hp.
  destruct (user_literal_present u Hp) as [props Hrec].
  unfold_stmt. simpl. rewrite Ha. simpl. rewrite Hs. simpl. rewrite Hd. simpl.
  rewrite Ht. simpl. rewrite Hu. simpl. rewrite Hrec. simpl.
  destruct (window w) as [win|]; simpl;
    eexists; eexists; repeat split; reflexivity.
Qed.

(** What the sample login writes, as text. *)
Example login_sample_store :
  window (login json_stringify (answering sample_response)
            "a@x.com" "secret" visitor).2
  = Some sample_store.
Proof. vm_compute. reflexivity. Qed.

(** The ordering slip of the mount effect (C1, C2) seen from [login]: the
    token is set before the response handling can throw, so a visitor whose
    login is answered by a response with a token and no user gets [false],
    yet the session holds the token. *)
Lemma login_partial_response_keeps_token :
  let api := answering partial_response in
  let r := login json_stringify api "a@x.com" "secret" visitor in
  Anonymous visitor
  /\ (login_try json_stringify api "a@x.com" "secret" visitor).1
     = Throw TypeError
  /\ r.1 = Normal false
  /\ loading r.2 = false
  /\ token r.2 = JStr "T" /\ user r.2 = JNull
  /\ ~ Anonymous r.2.
Proof.
  split; [by split|]. repeat (split; [reflexivity|]).
  unfold Anonymous. intros [H _]. discriminate H.
Qed.

(** C3 as stated fails for a session that was open: a login answered by
    [{success: false}] returns [false] and leaves the session as it found
    it, authenticated; [login] never makes a session anonymous. *)
Lemma login_failure_keeps_member :
  let r := login json_stringify (answering failure_response)
             "a@x.com" "wrong" member in
  Authenticated member
  /\ r.1 = Normal false
  /\ loading r.2 = false
  /\ Authenticated r.2
  /\ token r.2 = JStr "T"
  /\ ~ Anonymous r.2.
Proof.
  split; [by split|]. split; [reflexivity|]. split; [reflexivity|].
  split; [by split|]. split; [reflexivity|].
  unfold Anonymous. intros [H _]. discriminate H.
Qed.

(** C3, amended: every [login] call resolves to a boolean, never rejects,
    and leaves [loading] false; whenever its [try] block throws (the API
    call or the handling of its response) the boolean is [false]; and when
    the API call throws, or answers with no response object or with a falsy
    [success] or [data], [login] returns [false] and leaves [user], [token]
    and the browser storage as they were, so an anonymous session stays
    anonymous. *)
Theorem login_failure JSON_stringify api email password w :
  let r := login JSON_stringify api email password w in
  (exists b, r.1 = Normal b)
  /\ loading r.2 = false
  /\ (forall err,
        (login_try JSON_stringify api email password w).1 = Throw err ->
        r.1 = Normal false)
  /\ (refused (api email password) ->
      r.1 = Normal false
      /\ user r.2 = user w /\ token r.2 = token w /\ window r.2 = window w).
Proof.
  simpl.
  destruct (login_settles JSON_stringify api email password w)
    as (b & w' & Hrun & Hl).
  split; [rewrite Hrun; eauto|]. split; [by rewrite Hrun|]. split.
  - intros err H.
    destruct (login_thrown JSON_stringify _ _ _ _ _ H) as (w1 & -> & _).
    done.
  - intros H.
    destruct (login_refused JSON_stringify _ _ _ w H) as (w1 & -> & _ & H').
    done.
Qed.

Lemma login_failure_witness :
  refused (answering failure_response "a@x.com" "wrong")
  /\ Anonymous visitor
  /\ let r := login json_stringify (answering failure_response)
                "a@x.com" "wrong" visitor in
     r.1 = Normal false /\ loading r.2 = false /\ Anonymous r.2
     /\ window r.2 = window visitor.
Proof.
  assert (refused (answering failure_response "a@x.com" "wrong")) as H.
  { apply (refused_success failure_response (JBool false)); reflexivity. }
  assert (Anonymous visitor) as Ha by (split; reflexivity).
  split; [exact H|]. split; [exact Ha|].
  destruct (login_failure json_stringify (answering failure_response)
              "a@x.com" "wrong" visitor) as (_ & Hl & _ & Hr).
  destruct (Hr H) as (Hb & Hu & Ht & Hw).
  destruct Ha as [Ht0 Hu0].
  split; [exact Hb|]. split; [exact Hl|].
  split; [split; [by rewrite Ht | by rewrite Hu]|exact Hw].
Defined.

(** ** Logout *)

Lemma logout_anonymous w : (logout w).1 = Normal tt /\ Anonymous (logout w).2.
Proof. unfold_stmt. simpl. by destruct (window w). Qed.



(** ** The session invariant *)

Lemma neither_present w :
  token w = JNull -> user w = JNull -> both_or_neither w.
Proof.
  intros Ht Hu. unfold both_or_neither, present. rewrite Ht, Hu. done.
Qed.

Lemma both_present w :
  present (token w) -> present (user w) -> both_or_neither w.
Proof. unfold both_or_neither. tauto. Qed.

Lemma initialize_invariant JSON_parse win :
  restorable JSON_parse win ->
  both_or_neither (initialize JSON_parse (mount win)).2.
Proof.
  intros Hr. destruct win as [win|]; [|by rewrite initialize_no_window].
  destruct (truthy_item (localStorage win !! "authToken")
            && truthy_item (localStorage win !! "userData")) eqn:Htr.
  - destruct (localStorage win !! "authToken") as [t|] eqn:Ht; [|done].
    destruct (localStorage win !! "userData") as [u|] eqn:Hu;
      [|by rewrite andb_false_r in Htr].
    destruct (Hr win t u eq_refl Ht Hu Htr) as (v & Hp & Hv).
    destruct (initialize_restores JSON_parse win t u v Ht Hu Htr Hp)
      as (_ & Htok & Husr & _).
    apply both_present; [by rewrite Htok | by rewrite Husr].
  - rewrite (initialize_skips _ _ Htr). by apply neither_present.
Qed.

Lemma login_invariant JSON_stringify api email password w :
  refused (api email password) \/ granted (api email password) ->
  both_or_neither w ->
  both_or_neither (login JSON_stringify api email password w).2.
Proof.
  intros [Hr|Hg] Hw.
  - destruct (login_refused JSON_stringify _ _ _ w Hr)
      as (w' & -> & _ & Hu & Ht & _).
    unfold both_or_neither in *. simpl. by rewrite Hu, Ht.
  - pose proof Hg
      as (r & s & d & t & u & Ha & Hs & Hts & Hd & Htd & Ht & Hpt & Hu & Hpu).
    rewrite Ha in Hg. apply granted_accepted in Hg.
    destruct (login_granted JSON_stringify api email password w r d t u
                Ha Hg Hd Ht Hu Hpu)
      as (rec & w' & Hrec & -> & _ & Htok & Husr & _).
    destruct (user_literal_present u Hpu) as [props Hprops].
    apply both_present; simpl; [by rewrite Htok|].
    rewrite Husr. rewrite Hprops in Hrec. by injection Hrec as <-.
Qed.

(** Where the stored identity parses to a value and every answer is either
    refused or carries both a token and a user, the invariant holds in
    every reachable state. *)
Lemma session_invariant_wellformed JSON_parse JSON_stringify w :
  reachable_when JSON_parse JSON_stringify (restorable JSON_parse)
    (fun c => refused c \/ granted c) w ->
  both_or_neither w.
Proof.
  induction 1 as [win Hs|api email password w Ha Hw IH|w Hw IH].
  - by apply initialize_invariant.
  - by apply login_invariant.
  - destruct (logout_anonymous w) as [_ [Ht Hu]]. by apply neither_present.
Qed.

(** C1, at the input where the code departs from it: the state the mount
    effect reaches from a browser whose stored identity is the text [{bad]
    holds the token [T] and no identity. *)
Theorem session_invariant_broken :
  let w := (initialize json_parse (mount (Some corrupt_store))).2 in
  reachable json_parse json_stringify w
  /\ token w = JStr "T" /\ user w = JNull
  /\ ~ both_or_neither w.
Proof.
  split; [by constructor|]. split; [reflexivity|]. split; [reflexivity|].
  unfold both_or_neither. intros [H _]. specialize (H eq_refl).
  discriminate H.
Qed.

(** ** [useAuth] *)

(** C10: with no [AuthProvider] above the caller the context is [undefined]
    and [useAuth] throws an [Error] with the message [useAuth must be used
    within an AuthProvider]; below a provider it returns the value of the
    nearest one and does not throw. *)
Theorem useAuth_provider {AuthContextType : Type} :
  useAuth (@nil AuthContextType)
  = Throw (Error "useAuth must be used within an AuthProvider")
  /\ forall (value : AuthContextType) outer,
       useAuth (value :: outer) = Normal value.
Proof. split; reflexivity. Qed.

(** ** The dashboard loader *)

Module DashboardProofs.
Import AdminDashboard DashboardExamples.

Ltac unfold_dash :=
  unfold loadDashboardData, take, try_finally, try_catch, when, bind, ret,
    eval, modify, setEmployees, setAllTasks, setForms, setLoading in *.

Lemma take_declined response select view set d :
  declined response -> take response select view set d = (Normal tt, d).
Proof. intros H. unfold_dash. by rewrite H. Qed.

Lemma take_delivers response select view set views d :
  delivers select view response views ->
  take response select view set d = set views d.
Proof.
  intros (Hs & data & records & Hd & Hsel & Hmap). unfold_dash.
  rewrite Hs, Hd, Hsel, Hmap. reflexivity.
Qed.

Lemma take_users response new d :
  settled Normal user_view response (employees d) new ->
  take response Normal user_view setEmployees d
  = (Normal tt,
     {| employees := new; allTasks := allTasks d; forms := forms d;
        loading := loading d |}).
Proof.
  intros [[H ->]|H].
  - rewrite take_declined by done. by destruct d.
  - by rewrite (take_delivers _ _ _ _ new).
Qed.

Lemma take_tasks response new d :
  settled Normal task_view response (allTasks d) new ->
  take response Normal task_view setAllTasks d
  = (Normal tt,
     {| employees := employees d; allTasks := new; forms := forms d;
        loading := loading d |}).
Proof.
  intros [[H ->]|H].
  - rewrite take_declined by done. by destruct d.
  - by rewrite (take_delivers _ _ _ _ new).
Qed.

Lemma take_forms response new d :
  settled forms_of form_view response (forms d) new ->
  take response forms_of form_view setForms d
  = (Normal tt,
     {| employees := employees d; allTasks := allTasks d; forms := new;
        loading := loading d |}).
Proof.
  intros [[H ->]|H].
  - rewrite take_declined by done. by destruct d.
  - by rewrite (take_delivers _ _ _ _ new).
Qed.

Lemma load_fulfilled users tasks forms' d e' t' f' :
  settled Normal user_view users (employees d) e' ->
  settled Normal task_view tasks (allTasks d) t' ->
  settled forms_of form_view forms' (forms d) f' ->
  loadDashboardData (Normal users) (Normal tasks) (Normal forms') d
  = (Normal tt,
     {| employees := e'; allTasks := t'; forms := f'; loading := false |}).
Proof.
  intros Hu Ht Hf.
  unfold loadDashboardData, try_finally, try_catch, bind at 1 2 3 4.
  simpl.
  rewrite (take_users users e') by done.
  rewrite (take_tasks tasks t') by done.
  rewrite (take_forms forms' f') by done.
  reflexivity.
Qed.

Lemma load_rejected getAllUsers getAllTasks getAllForms d :
  is_normal getAllUsers && is_normal getAllTasks && is_normal getAllForms
  = false ->
  loadDashboardData getAllUsers getAllTasks getAllForms d
  = (Normal tt,
     {| employees := JArr []; allTasks := JArr []; forms := JArr [];
        loading := false |}).
Proof.
  intros H. unfold_dash.
  destruct getAllUsers; [|reflexivity].
  destruct getAllTasks; [|reflexivity].
  destruct getAllForms; [discriminate|reflexivity].
Qed.

(** C6 as stated fails when a request is rejected: with the users request
    rejected and the tasks request answered by one task, the dashboard is
    left with no task at all, not with the view of the one delivered. *)
Lemma load_rejection_discards_tasks :
  let r := loadDashboardData (Throw (Error "Failed to fetch"))
             (Normal tasks_response) (Normal forms_response) mounted in
  delivers Normal task_view tasks_response tasks_views
  /\ r.1 = Normal tt
  /\ allTasks r.2 = JArr []
  /\ allTasks r.2 <> tasks_views.
Proof.
  split.
  - split; [reflexivity|]. eexists; eexists. repeat split; reflexivity.
  - split; [reflexivity|]. split; [reflexivity|]. discriminate.
Qed.

End DashboardProofs.

(** ** Progress *)

Module ProgressProofs.
Import OnboardingUtils.

Lemma divide_defined a b : b <> 0 -> divide a b = Some (a / b).
Proof. intros H. unfold divide. by destruct (Z.eqb_spec b 0). Qed.

(** C8: the progress of the empty task collection is 0; the computation
    divides only by a non-zero count, so for every collection it yields a
    defined percentage, between 0 and 100. *)
Theorem progress_of_no_tasks :
  calculateOnboardingProgress [] = Some 0
  /\ forall tasks,
       exists p, calculateOnboardingProgress tasks = Some p /\ 0 <= p <= 100.
Proof.
  split; [reflexivity|]. intros tasks.
  unfold calculateOnboardingProgress.
  pose proof (length_filter (fun t => is_done t = true) tasks) as Hle.
  set (total := Z.of_nat (length tasks)) in *.
  set (completed := Z.of_nat (length (filter _ tasks))) in *.
  assert (0 <= completed <= total) as Hc by (subst total completed; lia).
  destruct (Z.eqb_spec total 0) as [|Hne]; [exists 0; split; [done|lia]|].
  rewrite divide_defined by lia. eexists. split; [reflexivity|].
  split.
  - apply Z.div_pos; lia.
  - apply Z.lt_succ_r, Z.div_lt_upper_bound; lia.
Qed.

(** One task done out of three is 33 percent, two out of three 67. *)
Example progress_one_third :
  let done := JObj [("status", JStr "completed")] in
  let open := JObj [("status", JStr "pending")] in
  calculateOnboardingProgress [done; open; open] = Some 33
  /\ calculateOnboardingProgress [done; open; done] = Some 67
  /\ calculateOnboardingProgress [done; done] = Some 100.
Proof. repeat split; reflexivity. Qed.

End ProgressProofs.

(** * Further properties of the session store *)

(** What a [login] call can have done to the browser: nothing, or the two
    writes. *)
Lemma login_window JSON_stringify api email password w :
  let w' := (login JSON_stringify api email password w).2 in
  window w' = window w
  \/ exists t record,
       window w' =
       (fun win => {| localStorage :=
                        <["userData" := JSON_stringify record]>
                          (<["authToken" := t]> (localStorage win));
                      location_href := location_href win |}) <$> window w.
Proof.
  unfold_stmt. simpl.
  destruct (api email password) as [r|e]; simpl; [|by left].
  destruct (success_and_data r) as [[|]|e]; simpl; try by left.
  destruct (get r "data") as [d|e]; simpl; [|by left].
  destruct (get d "accessToken") as [t|e]; simpl; [|by left].
  destruct (get d "user") as [u|e]; simpl; [|by left].
  destruct (user_literal u) as [rec|e]; simpl; [|by left].
  destruct (window w) as [win|]; simpl; [|by left].
  right. by exists (ToString t), rec.
Qed.

Lemma initialize_window JSON_parse w :
  let w' := (initialize JSON_parse w).2 in
  window w' = window w
  \/ window w' =
     (fun win => {| localStorage :=
                      delete "userData" (delete "authToken" (localStorage win));
                    location_href := location_href win |}) <$> window w.
Proof.
  unfold_stmt. destruct w as [u t l [win|] ev]; simpl; [|by left].
  destruct (truthy_item _ && truthy_item _); simpl.
  - destruct (JSON_parse _); simpl; [left|right]; by destruct win.
  - left. by destruct win.
Qed.

Lemma logout_window w :
  window (logout w).2 =
  (fun win => {| localStorage :=
                   delete "userData" (delete "authToken" (localStorage win));
                 location_href := "/auth/login" |}) <$> window w.
Proof. unfold_stmt. simpl. by destruct (window w). Qed.

(** X1: on well-formed inputs the session is always in one of its two
    shapes.  If the stored identity, whenever both keys are stored, parses
    to a value that is neither null nor undefined, and every answer of the
    API client is either refused or carries both a token and a user, then
    every state the provider reaches is anonymous ([token] and [user] both
    null) or authenticated (both present). *)
Theorem session_has_two_shapes JSON_parse JSON_stringify w :
  reachable_when JSON_parse JSON_stringify (restorable JSON_parse)
    (fun c => refused c \/ granted c) w ->
  Anonymous w \/ Authenticated w.
Proof.
  induction 1 as [win Hs|api email password w Ha Hw IH|w Hw IH].
  - destruct win as [win|]; [|left; by rewrite initialize_no_window].
    destruct (truthy_item (localStorage win !! "authToken")
              && truthy_item (localStorage win !! "userData")) eqn:Htr.
    + destruct (localStorage win !! "authToken") as [t|] eqn:Ht; [|done].
      destruct (localStorage win !! "userData") as [u|] eqn:Hu;
        [|by rewrite andb_false_r in Htr].
      destruct (Hs win t u eq_refl Ht Hu Htr) as (v & Hp & Hv).
      destruct (initialize_restores JSON_parse win t u v Ht Hu Htr Hp)
        as (_ & Htok & Husr & _).
      right. split; [by rewrite Htok | by rewrite Husr].
    + left. by rewrite (initialize_skips _ _ Htr).
  - destruct Ha as [Hr|Hg].
    + destruct (login_refused JSON_stringify _ _ _ w Hr)
        as (w' & -> & _ & Hu & Ht & _).
      unfold Anonymous, Authenticated in *. simpl. by rewrite Hu, Ht.
    + pose proof Hg
        as (r & s & d & t & u & Hapi & Hs & Hts & Hd & Htd & Ht & Hpt & Hu & Hpu).
      rewrite Hapi in Hg. apply granted_accepted in Hg.
      destruct (login_granted JSON_stringify api email password w r d t u
                  Hapi Hg Hd Ht Hu Hpu)
        as (rec & w' & Hrec & -> & _ & Htok & Husr & _).
      destruct (user_literal_present u Hpu) as [props Hprops].
      right. split; simpl; [by rewrite Htok|].
      rewrite Husr. rewrite Hprops in Hrec. by injection Hrec as <-.
  - left. by destruct (logout_anonymous w) as [_ H].
Qed.

Lemma session_has_two_shapes_witness :
  reachable_when json_parse json_stringify (restorable json_parse)
    (fun c => refused c \/ granted c) member
  /\ (Anonymous member \/ Authenticated member).
Proof.
  assert (reachable_when json_parse json_stringify (restorable json_parse)
            (fun c => refused c \/ granted c) member) as H.
  { unfold member.
    apply (reach_login json_parse json_stringify (restorable json_parse)
             (fun c => refused c \/ granted c)
             (answering sample_response) "a@x.com" "secret" visitor).
    - right.
      exists sample_response, (JBool true),
        (JObj [("accessToken", JStr "T");
               ("user", JObj [("id", JStr "1"); ("name", JStr "A");
                              ("email", JStr "a@x.com");
                              ("role", JStr "user")])]),
        (JStr "T"),
        (JObj [("id", JStr "1"); ("name", JStr "A");
               ("email", JStr "a@x.com"); ("role", JStr "user")]).
      repeat split; reflexivity.
    - unfold visitor. apply reach_initialize.
      intros b t u [= <-] Ht. vm_compute in Ht. discriminate Ht. }
  split; [exact H|].
  exact (session_has_two_shapes json_parse json_stringify member H).
Defined.

(** X3: a session survives a reload.  After an accepted login in a browser,
    if the token is stored as a non-empty string and the stored record parses
    back to [v], then the mount effect of the next page load restores the
    token (as the string that was stored) and [v] as the user, and leaves
    the storage as the login left it. *)
Theorem login_then_reload JSON_parse JSON_stringify api email password
    w win r s d t u record v :
  window w = Some win ->
  api email password = Normal r ->
  get r "success" = Normal s -> truthy s = true ->
  get r "data" = Normal d -> truthy d = true ->
  get d "accessToken" = Normal t ->
  get d "user" = Normal u -> present u ->
  user_literal u = Normal record ->
  truthy (JStr (ToString t)) = true ->
  truthy (JStr (JSON_stringify record)) = true ->
  JSON_parse (JSON_stringify record) = Normal v ->
  let w1 := (login JSON_stringify api email password w).2 in
  let res := initialize JSON_parse (mount (window w1)) in
  res.1 = Normal tt
  /\ token res.2 = JStr (ToString t) /\ user res.2 = v
  /\ loading res.2 = false
  /\ window res.2 = window w1.
Proof.
  intros Hw Ha Hs Hts Hd Htd Ht Hu Hp Hrec Htt Htr Hparse.
  assert (success_and_data r = Normal true) as Hacc.
  { unfold success_and_data. rewrite Hs. simpl. rewrite Hts, Hd. simpl.
    by rewrite Htd. }
  destruct (login_granted JSON_stringify api email password w r d t u
              Ha Hacc Hd Ht Hu Hp)
    as (record' & w' & Hrec' & Hrun & _ & _ & _ & Hwin).
  rewrite Hrec in Hrec'. injection Hrec' as <-.
  simpl. rewrite Hrun. simpl. rewrite Hwin, Hw. simpl.
  apply (initialize_restores JSON_parse _ (ToString t)
           (JSON_stringify record) v); simpl.
  - rewrite lookup_insert_ne by done. apply lookup_insert_eq.
  - apply lookup_insert_eq.
  - unfold truthy_item. simpl. simpl in Htt, Htr. by rewrite Htt, Htr.
  - exact Hparse.
Qed.

Lemma login_then_reload_witness :
  let w1 := (login json_stringify (answering sample_response)
               "a@x.com" "secret" visitor).2 in
  let res := initialize json_parse (mount (window w1)) in
  res.1 = Normal tt
  /\ token res.2 = JStr (ToString (JStr "T"))
  /\ user res.2 = JObj [("id", JStr "1"); ("name", JStr "A");
                        ("email", JStr "a@x.com"); ("role", JStr "user")]
  /\ loading res.2 = false
  /\ window res.2 = window w1.
Proof.
  apply (login_then_reload json_parse json_stringify
           (answering sample_response) "a@x.com" "secret" visitor empty_store
           sample_response (JBool true)
           (JObj [("accessToken", JStr "T");
                  ("user", JObj [("id", JStr "1"); ("name", JStr "A");
                                 ("email", JStr "a@x.com");
                                 ("role", JStr "user")])])
           (JStr "T")
           (JObj [("id", JStr "1"); ("name", JStr "A");
                  ("email", JStr "a@x.com"); ("role", JStr "user")])
           sample_identity); reflexivity.
Defined.



(** X5: corrupt stored data is cleared once and for all.  When both keys
    hold a non-empty string and the stored identity does not parse, the
    page load after that one starts from a storage without the two keys: it
    is anonymous, changes nothing in the browser and logs no error. *)
Theorem corrupt_store_heals JSON_parse win t u e :
  localStorage win !! "authToken" = Some t ->
  localStorage win !! "userData" = Some u ->
  truthy_item (Some t) && truthy_item (Some u) = true ->
  JSON_parse u = Throw e ->
  let w1 := (initialize JSON_parse (mount (Some win))).2 in
  let res := initialize JSON_parse (mount (window w1)) in
  res.1 = Normal tt
  /\ Anonymous res.2
  /\ window res.2 = window w1
  /\ events res.2 = [SetLoading false].
Proof.
  intros Ht Hu Htr Hp.
  destruct (initialize_discards JSON_parse win t u e Ht Hu Htr Hp)
    as (_ & _ & _ & _ & Hwin).
  simpl in *. rewrite Hwin. rewrite initialize_skips; [done|].
  simpl. rewrite lookup_delete_ne by done. by rewrite lookup_delete_eq.
Qed.

Lemma corrupt_store_heals_witness :
  let w1 := (initialize json_parse (mount (Some corrupt_store))).2 in
  let res := initialize json_parse (mount (window w1)) in
  res.1 = Normal tt
  /\ Anonymous res.2
  /\ window res.2 = window w1
  /\ events res.2 = [SetLoading false].
Proof.
  apply (corrupt_store_heals json_parse corrupt_store "T" "{bad" SyntaxError);
    reflexivity.
Defined.

(** X6: the session store owns two keys and no other.  In every state the
    provider can reach from a browser, whatever is stored, whatever
    [JSON.parse] does and whatever the API client answers, every key of
    [localStorage] other than [authToken] and [userData] holds what it held
    when the page was loaded. *)
Theorem session_store_frame JSON_parse JSON_stringify win0 w k :
  reachable_when JSON_parse JSON_stringify (started_in win0)
    (fun _ => True) w ->
  k <> "authToken" -> k <> "userData" ->
  exists win,
    window w = Some win
    /\ localStorage win !! k = localStorage win0 !! k.
Proof.
  intros Hreach Hk1 Hk2.
  induction Hreach as [win Hs|api email password w Ha Hw IH|w Hw IH].
  - unfold started_in in Hs. subst win.
    destruct (initialize_window JSON_parse (mount (Some win0))) as [H|H];
      simpl in H; rewrite H; eexists; (split; [reflexivity|]); [done|].
    simpl. by rewrite !lookup_delete_ne.
  - destruct IH as (win & Hwin & Hk).
    destruct (login_window JSON_stringify api email password w)
      as [H|(t & rec & H)]; simpl in H; rewrite H, Hwin;
      eexists; (split; [reflexivity|]); [done|].
    simpl. by rewrite !lookup_insert_ne.
  - destruct IH as (win & Hwin & Hk).
    rewrite logout_window, Hwin. eexists. split; [reflexivity|].
    simpl. by rewrite !lookup_delete_ne.
Qed.

Lemma session_store_frame_witness :
  let w := (logout (login json_stringify (answering sample_response)
                      "a@x.com" "secret"
                      (initialize json_parse (mount (Some themed_store))).2).2).2 in
  exists win,
    window w = Some win
    /\ localStorage win !! "theme" = localStorage themed_store !! "theme".
Proof.
  apply (session_store_frame json_parse json_stringify themed_store); [|done|done].
  apply reach_logout, reach_login; [exact I|].
  apply reach_initialize. reflexivity.
Defined.

(** X7: only [logout] navigates.  The mount effect and [login], run from any
    state and on any input, leave [window.location.href] as it was and add
    no navigation to the trace. *)
Theorem only_logout_navigates JSON_parse JSON_stringify api email password w :
  let wi := (initialize JSON_parse w).2 in
  let wl := (login JSON_stringify api email password w).2 in
  location_href <$> window wi = location_href <$> window w
  /\ List.filter navigates (events wi) = List.filter navigates (events w)
  /\ location_href <$> window wl = location_href <$> window w
  /\ List.filter navigates (events wl) = List.filter navigates (events w).
Proof.
  simpl. split; [|split; [|split]].
  - destruct (initialize_window JSON_parse w) as [H|H]; simpl in H;
      rewrite H; [done|]. by destruct (window w).
  - unfold_stmt. destruct w as [u t l [win|] ev]; simpl;
      [|by rewrite List.filter_app, app_nil_r].
    destruct (truthy_item _ && truthy_item _); simpl.
    + destruct (JSON_parse _); simpl;
        rewrite ?app_nil_r, !List.filter_app; simpl; by rewrite ?app_nil_r.
    + rewrite ?app_nil_r, !List.filter_app; simpl; by rewrite ?app_nil_r.
  - destruct (login_window JSON_stringify api email password w)
      as [H|(t & rec & H)]; simpl in H; rewrite H; [done|].
    by destruct (window w).
  - unfold_stmt. simpl.
    destruct (api email password) as [r|e]; simpl;
      [|rewrite !List.filter_app; simpl; by rewrite ?app_nil_r].
    destruct (success_and_data r) as [[|]|e]; simpl;
      try (rewrite !List.filter_app; simpl; by rewrite ?app_nil_r).
    destruct (get r "data") as [d|e]; simpl;
      [|rewrite !List.filter_app; simpl; by rewrite ?app_nil_r].
    destruct (get d "accessToken") as [t|e]; simpl;
      [|rewrite !List.filter_app; simpl; by rewrite ?app_nil_r].
    destruct (get d "user") as [u|e]; simpl;
      [|rewrite !List.filter_app; simpl; by rewrite ?app_nil_r].
    destruct (user_literal u) as [rec|e]; simpl;
      [|rewrite !List.filter_app; simpl; by rewrite ?app_nil_r].
    destruct (window w); simpl;
      rewrite !List.filter_app; simpl; by rewrite ?app_nil_r.
Qed.

(** X8: the busy indicator brackets every [login] call.  Whatever the API
    client does, the first thing [login] does is [setLoading(true)], the
    last is [setLoading(false)], and it does not touch [loading] in
    between. *)
Theorem login_brackets_loading JSON_stringify api email password w :
  exists during,
    events (login JSON_stringify api email password w).2
    = events w ++ [SetLoading true] ++ during ++ [SetLoading false]
    /\ Forall (fun e => forall b, e <> SetLoading b) during.
Proof.
  unfold_stmt. simpl.
  destruct (api email password) as [r|e]; simpl.
  2: { exists [ConsoleError "Login error:"].
       rewrite <- !app_assoc. split; [done|]. by repeat constructor. }
  destruct (success_and_data r) as [[|]|e]; simpl.
  2: { exists []. rewrite <- !app_assoc. split; [done|]. constructor. }
  2: { exists [ConsoleError "Login error:"].
       rewrite <- !app_assoc. split; [done|]. by repeat constructor. }
  destruct (get r "data") as [d|e]; simpl.
  2: { exists [ConsoleError "Login error:"].
       rewrite <- !app_assoc. split; [done|]. by repeat constructor. }
  destruct (get d "accessToken") as [t|e]; simpl.
  2: { exists [ConsoleError "Login error:"].
       rewrite <- !app_assoc. split; [done|]. by repeat constructor. }
  destruct (get d "user") as [u|e]; simpl.
  2: { exists [ConsoleError "Login error:"].
       rewrite <- !app_assoc. split; [done|]. by repeat constructor. }
  destruct (user_literal u) as [rec|e]; simpl.
  2: { exists [SetToken t; ConsoleError "Login error:"].
       rewrite <- !app_assoc. split; [done|]. by repeat constructor. }
  destruct (window w); simpl.
  - eexists [SetToken t; SetUser rec; SetItem _ _; SetItem _ _].
    rewrite <- !app_assoc. split; [done|]. by repeat constructor.
  - exists [SetToken t; SetUser rec].
    rewrite <- !app_assoc. split; [done|]. by repeat constructor.
Qed.

Lemma initialize_runs_clear JSON_parse w :
  exists w', initialize JSON_parse w = (Normal tt, w') /\ loading w' = false.
Proof.
  unfold_stmt. destruct w as [u t l [win|] ev]; simpl; eauto.
  destruct (truthy_item _ && truthy_item _); simpl; eauto.
  destruct (JSON_parse _); simpl; eauto.
Qed.

(** * The views of the session *)

(** X10: the home page redirects exactly once, and to the right place.
    Below a provider whose [loading] is false, the effect of [HomeContent]
    pushes exactly one route and never throws: [/auth/login] when [user] is
    falsy, [/admin/dashboard] when [user] is truthy and its [role] is the
    string [admin], [/dashboard] for every other truthy [user]. *)
Theorem home_redirects_once context outer :
  loading context = false ->
  exists route,
    HomeContent (context :: outer) = Normal [route]
    /\ route ∈ ["/auth/login"; "/admin/dashboard"; "/dashboard"]
    /\ (route = "/auth/login" <-> truthy (user context) = false)
    /\ (route = "/admin/dashboard"
        <-> truthy (user context) = true
            /\ get (user context) "role" = Normal (JStr "admin")).
Proof.
  intros Hl. unfold HomeContent, useAuth, useContext. simpl.
  unfold home_effect. rewrite Hl. simpl.
  destruct (truthy (user context)) eqn:Ht; simpl.
  - destruct (user context) as [| |b|n|s|items|props] eqn:Hu; try discriminate;
      simpl.
    1-4: (exists "/dashboard"; split; [done|]; split; [set_solver|];
          split; split; try done; by intros [_ ?]).
    destruct (default JUndefined (assoc "role" props)) as [| |b|n|s|items|ps]
      eqn:Hr; simpl;
      try (exists "/dashboard"; split; [done|]; split; [set_solver|];
           split; split; try done; by intros [_ ?]).
    destruct (String.eqb_spec s "admin") as [->|Hne].
    + exists "/admin/dashboard". split; [done|]. split; [set_solver|].
      split; split; done.
    + exists "/dashboard". split; [done|]. split; [set_solver|].
      split; split; try done. intros [_ [= ?]]. done.
  - exists "/auth/login". split; [done|]. split; [set_solver|].
    split; split; try done. by intros [? _].
Qed.

Lemma home_redirects_once_witness :
  loading visitor = false
  /\ exists route,
       HomeContent [visitor] = Normal [route]
       /\ route ∈ ["/auth/login"; "/admin/dashboard"; "/dashboard"]
       /\ (route = "/auth/login" <-> truthy (user visitor) = false)
       /\ (route = "/admin/dashboard"
           <-> truthy (user visitor) = true
               /\ get (user visitor) "role" = Normal (JStr "admin")).
Proof.
  split; [reflexivity|].
  apply (home_redirects_once visitor []). reflexivity.
Defined.

(** While the session is being restored the home page goes nowhere, and
    once an administrator is logged in it goes to the admin dashboard. *)
Example home_examples :
  HomeContent [mount (Some sample_store)] = Normal []
  /\ HomeContent [member] = Normal ["/dashboard"]
  /\ HomeContent [(login json_stringify (answering admin_response)
                     "root@x.com" "secret" visitor).2]
     = Normal ["/admin/dashboard"]
  /\ HomeContent [] = Throw (Error "useAuth must be used within an AuthProvider").
Proof. repeat split; reflexivity. Qed.

(** X11: the sidebar follows the session.  [Layout] throws outside a
    provider; after [logout] it renders its children bare, from whatever
    session; and after every accepted login (truthy [success] and [data], a
    [user] that is neither null nor undefined) it renders the sidebar. *)
Theorem layout_follows_session JSON_stringify api email password w r s d u :
  api email password = Normal r ->
  get r "success" = Normal s -> truthy s = true ->
  get r "data" = Normal d -> truthy d = true ->
  get d "user" = Normal u -> present u ->
  Layout [] = Throw (Error "useAuth must be used within an AuthProvider")
  /\ Layout [(logout w).2] = Normal Bare
  /\ Layout [(login JSON_stringify api email password w).2]
     = Normal WithSidebar.
Proof.
  intros Ha Hs Hts Hd Htd Hu Hp.
  split; [reflexivity|]. split.
  - destruct (logout_anonymous w) as [_ [_ Hnull]].
    unfold Layout, useAuth, useContext. simpl. by rewrite Hnull.
  - assert (success_and_data r = Normal true) as Hacc.
    { unfold success_and_data. rewrite Hs. simpl. rewrite Hts, Hd. simpl.
      by rewrite Htd. }
    assert (exists t, get d "accessToken" = Normal t) as [t Ht].
    { destruct d; try discriminate; simpl; eauto. }
    destruct (login_granted JSON_stringify api email password w r d t u
                Ha Hacc Hd Ht Hu Hp)
      as (record & w' & Hrec & Hrun & _ & _ & Husr & _).
    destruct (user_literal_present u Hp) as [props Hprops].
    rewrite Hprops in Hrec. injection Hrec as <-.
    rewrite Hrun. unfold Layout, useAuth, useContext. simpl.
    by rewrite Husr.
Qed.

Lemma layout_follows_session_witness :
  Layout [] = Throw (Error "useAuth must be used within an AuthProvider")
  /\ Layout [(logout member).2] = Normal Bare
  /\ Layout [(login json_stringify (answering sample_response)
                 "a@x.com" "secret" member).2]
     = Normal WithSidebar.
Proof.
  apply (layout_follows_session json_stringify (answering sample_response)
           "a@x.com" "secret" member sample_response (JBool true)
           (JObj [("accessToken", JStr "T");
                  ("user", JObj [("id", JStr "1"); ("name", JStr "A");
                                 ("email", JStr "a@x.com");
                                 ("role", JStr "user")])])
           (JObj [("id", JStr "1"); ("name", JStr "A");
                  ("email", JStr "a@x.com"); ("role", JStr "user")]));
    reflexivity.
Defined.

(** X25: the admin pages and the home page agree on who is an
    administrator.  For every session that is not loading, the home page
    pushes [/admin/dashboard] exactly when [user?.role === 'admin'] holds,
    the test under which the admin dashboard and the task page load their
    data; the test itself never throws. *)
Theorem admin_pages_agree_with_home context outer :
  loading context = false ->
  exists admin,
    is_admin (user context) = Normal admin
    /\ (HomeContent (context :: outer) = Normal ["/admin/dashboard"]
        <-> admin = true).
Proof.
  intros Hl. unfold HomeContent, useAuth, useContext, home_effect, is_admin,
    optional_get. simpl. rewrite Hl. simpl.
  destruct (user context) as [| |b|n|s|items|props]; simpl.
  1-2: by (eexists; (split; [reflexivity|]); split; intros H; simplify_eq).
  - destruct b; simpl;
      by (eexists; (split; [reflexivity|]); split; intros H; simplify_eq).
  - destruct (n =? 0); simpl;
      by (eexists; (split; [reflexivity|]); split; intros H; simplify_eq).
  - destruct s; simpl;
      by (eexists; (split; [reflexivity|]); split; intros H; simplify_eq).
  - by (eexists; (split; [reflexivity|]); split; intros H; simplify_eq).
  - destruct (strict_equal _ _); simpl;
      by (eexists; (split; [reflexivity|]); split; intros H; simplify_eq).
Qed.

Lemma admin_pages_agree_with_home_witness :
  loading member = false
  /\ exists admin,
       is_admin (user member) = Normal admin
       /\ (HomeContent [member] = Normal ["/admin/dashboard"]
           <-> admin = true).
Proof.
  split; [reflexivity|].
  apply (admin_pages_agree_with_home member []). reflexivity.
Defined.

(** * Further properties of the admin dashboard *)

Module DashboardMore.
Import AdminDashboard DashboardExamples DashboardStats.

Ltac unfold_load :=
  unfold loadDashboardData, take, try_finally, try_catch, when, bind, ret,
    eval, modify, setEmployees, setAllTasks, setForms, setLoading in *.

(** The three ways one block of the loader can end. *)
Lemma take_cases response select view set d :
  (declined response /\ take response select view set d = (Normal tt, d))
  \/ (exists views,
        delivers select view response views
        /\ take response select view set d = set views d)
  \/ exists e, take response select view set d = (Throw e, d).
Proof.
  unfold declined, delivers. unfold_load.
  destruct (success_and_data response) as [[|]|e] eqn:Hs; simpl; eauto.
  destruct (get response "data") as [data|e] eqn:Hd; simpl; eauto.
  destruct (select data) as [records|e] eqn:Hsel; simpl; eauto.
  destruct (array_map view records) as [views|e] eqn:Hmap; simpl; eauto.
  right. left. exists views. eauto 10.
Qed.

Lemma map_elements_Forall (P : JsVal -> Prop) view items views :
  (forall i v, view i = Normal v -> P v) ->
  map_elements view items = Normal views ->
  Forall P views /\ length views = length items.
Proof.
  intros Hview. revert views.
  induction items as [|i rest IH]; intros views H; simpl in H.
  - injection H as <-. by split.
  - destruct (view i) as [v|e] eqn:Hv; simpl in H; [|discriminate].
    destruct (map_elements view rest) as [vs|e] eqn:Hvs; simpl in H;
      [|discriminate].
    injection H as <-. destruct (IH vs eq_refl) as [HF Hlen].
    split; [constructor; eauto | simpl; by rewrite Hlen].
Qed.

Lemma array_map_array_of (P : JsVal -> Prop) view records views :
  (forall i v, view i = Normal v -> P v) ->
  array_map view records = Normal views ->
  array_of P views.
Proof.
  intros Hview H. destruct records; try discriminate. simpl in H.
  destruct (map_elements view items) as [vs|e] eqn:Hvs; [|discriminate].
  injection H as <-. exists vs. split; [done|].
  by destruct (map_elements_Forall P view items vs Hview Hvs).
Qed.

Lemma bind_normal {A B} (c : Completion A) (k : A -> Completion B) b :
  c ≫= k = Normal b -> exists a, c = Normal a /\ k a = Normal b.
Proof. destruct c; simpl; [eauto|discriminate]. Qed.

Ltac binds H :=
  repeat
    (let a := fresh "x" in
     let Ha := fresh "Hx" in
     apply bind_normal in H as (a & Ha & H)).

Lemma user_view_object u v : user_view u = Normal v -> is_object v.
Proof.
  unfold user_view. intros H. binds H. injection H as <-. by eexists.
Qed.

Lemma task_view_priority t v :
  task_view t = Normal v -> has_truthy "priority" v.
Proof.
  unfold task_view. intros H. binds H. injection H as <-.
  split; [by eexists|]. eexists. split; [reflexivity|].
  simpl. unfold js_or.
  match goal with
  | |- context [if truthy ?p then _ else _] =>
      destruct (truthy p) eqn:Hp; [exact Hp|reflexivity]
  end.
Qed.

Lemma form_view_fields f v :
  form_view f = Normal v -> has_truthy "fields" v.
Proof.
  unfold form_view. intros H. binds H. injection H as <-.
  split; [by eexists|]. eexists. split; [reflexivity|].
  simpl. unfold js_or.
  match goal with
  | |- context [if truthy ?p then _ else _] =>
      destruct (truthy p) eqn:Hp; [exact Hp|reflexivity]
  end.
Qed.

Lemma array_of_nil P : array_of P (JArr []).
Proof. exists []. by split. Qed.

(** The loader on three fulfilled requests: the three blocks in a row, then
    the [catch] and the [finally]. *)
Lemma load_unfold users tasks forms' d :
  loadDashboardData (Normal users) (Normal tasks) (Normal forms') d
  = match bind (take users Normal user_view setEmployees)
            (fun _ => bind (take tasks Normal task_view setAllTasks)
                        (fun _ => take forms' forms_of form_view setForms))
            {| employees := employees d; allTasks := allTasks d;
               forms := forms d; loading := true |} with
    | (Normal a, s') =>
        (Normal a,
         {| employees := employees s'; allTasks := allTasks s';
            forms := forms s'; loading := false |})
    | (Throw _, _) =>
        (Normal tt,
         {| employees := JArr []; allTasks := JArr []; forms := JArr [];
            loading := false |})
    end.
Proof.
  unfold loadDashboardData, try_finally, try_catch, bind, eval, modify,
    setEmployees, setAllTasks, setForms, setLoading.
  simpl.
  destruct (take users _ _ _ _) as [[[]|e] s1]; [|reflexivity].
  destruct (take tasks _ _ _ _) as [[[]|e] s2]; [|reflexivity].
  destruct (take forms' _ _ _ _) as [[[]|e] s3]; reflexivity.
Qed.

(** A load whose three requests were fulfilled: each block settles its
    collection, or one of them throws and everything is emptied. *)
Lemma load_fulfilled_cases users tasks forms' d :
  (exists e' t' f',
      settled Normal user_view users (employees d) e'
      /\ settled Normal task_view tasks (allTasks d) t'
      /\ settled forms_of form_view forms' (forms d) f'
      /\ loadDashboardData (Normal users) (Normal tasks) (Normal forms') d
         = (Normal tt,
            {| employees := e'; allTasks := t'; forms := f';
               loading := false |}))
  \/ loadDashboardData (Normal users) (Normal tasks) (Normal forms') d
     = (Normal tt,
        {| employees := JArr []; allTasks := JArr []; forms := JArr [];
           loading := false |}).
Proof.
  set (d0 := {| employees := employees d; allTasks := allTasks d;
                forms := forms d; loading := true |}).
  rewrite (load_unfold users tasks forms' d). fold d0. unfold bind.
  destruct (take_cases users Normal user_view setEmployees d0)
    as [[Hu ->]|[(e' & Hu & ->)|(e & ->)]]; [| |by right].
  - destruct (take_cases tasks Normal task_view setAllTasks d0)
      as [[Ht ->]|[(t' & Ht & ->)|(e & ->)]]; [| |by right].
    + destruct (take_cases forms' forms_of form_view setForms d0)
        as [[Hf ->]|[(f' & Hf & ->)|(e & ->)]]; [| |by right]; left.
      * exists (employees d), (allTasks d), (forms d).
        repeat split; try done; by left.
      * exists (employees d), (allTasks d), f'.
        repeat split; try done; first [by left | by right].
    + simpl.
      destruct (take_cases forms' forms_of form_view setForms
                  {| employees := employees d; allTasks := t';
                     forms := forms d; loading := true |})
        as [[Hf ->]|[(f' & Hf & ->)|(e & ->)]]; [| |by right]; left.
      * exists (employees d), t', (forms d).
        repeat split; try done; first [by left | by right].
      * exists (employees d), t', f'.
        repeat split; try done; first [by left | by right].
  - simpl.
    destruct (take_cases tasks Normal task_view setAllTasks
                {| employees := e'; allTasks := allTasks d;
                   forms := forms d; loading := true |})
      as [[Ht ->]|[(t' & Ht & ->)|(e & ->)]]; [| |by right].
    + destruct (take_cases forms' forms_of form_view setForms
                  {| employees := e'; allTasks := allTasks d;
                     forms := forms d; loading := true |})
        as [[Hf ->]|[(f' & Hf & ->)|(e & ->)]]; [| |by right]; left.
      * exists e', (allTasks d), (forms d).
        repeat split; try done; first [by left | by right].
      * exists e', (allTasks d), f'.
        repeat split; try done; first [by left | by right].
    + simpl.
      destruct (take_cases forms' forms_of form_view setForms
                  {| employees := e'; allTasks := t';
                     forms := forms d; loading := true |})
        as [[Hf ->]|[(f' & Hf & ->)|(e & ->)]]; [| |by right]; left.
      * exists e', t', (forms d).
        repeat split; try done; first [by left | by right].
      * exists e', t', f'.
        repeat split; try done; first [by left | by right].
Qed.

(** X12: every load of the dashboard ends in one of two ways.  Whatever the
    three requests do, [loadDashboardData] completes without an exception
    and with [loading] false, and either all three collections are empty,
    or all three requests were fulfilled and each collection is what its
    own response made of it: left as it was on a falsy [success] or [data],
    replaced by the mapped records otherwise. *)
Theorem load_outcome getAllUsers getAllTasks getAllForms d :
  let r := loadDashboardData getAllUsers getAllTasks getAllForms d in
  r.1 = Normal tt
  /\ loading r.2 = false
  /\ (emptied r.2
      \/ exists users tasks forms',
           getAllUsers = Normal users
           /\ getAllTasks = Normal tasks
           /\ getAllForms = Normal forms'
           /\ settled Normal user_view users (employees d) (employees r.2)
           /\ settled Normal task_view tasks (allTasks d) (allTasks r.2)
           /\ settled forms_of form_view forms' (forms d) (forms r.2)).
Proof.
  simpl.
  destruct getAllUsers as [users|e];
    [|rewrite DashboardProofs.load_rejected by done;
      split; [done|]; split; [done|]; by left].
  destruct getAllTasks as [tasks|e];
    [|rewrite DashboardProofs.load_rejected by done;
      split; [done|]; split; [done|]; by left].
  destruct getAllForms as [forms'|e];
    [|rewrite DashboardProofs.load_rejected by done;
      split; [done|]; split; [done|]; by left].
  destruct (load_fulfilled_cases users tasks forms' d)
    as [(e' & t' & f' & Hu & Ht & Hf & ->)| ->].
  - split; [done|]. split; [done|]. right.
    exists users, tasks, forms'. by repeat split.
  - split; [done|]. split; [done|]. by left.
Qed.

Lemma settled_array_of P select view response old new :
  (forall i v, view i = Normal v -> P v) ->
  array_of P old ->
  settled select view response old new ->
  array_of P new.
Proof.
  intros Hview Hold [[_ ->]|(_ & data & records & _ & _ & Hmap)]; [done|].
  by apply (array_map_array_of P view records).
Qed.

(** X13: the loader keeps the dashboard in shape.  From a state whose three
    collections are arrays of objects, every task with a truthy [priority]
    and every form with truthy [fields], every load, whatever the requests
    do or answer, leads to such a state again; the state of a freshly
    mounted dashboard is one. *)
Theorem load_keeps_shape getAllUsers getAllTasks getAllForms d :
  well_formed d ->
  well_formed (loadDashboardData getAllUsers getAllTasks getAllForms d).2.
Proof.
  intros (He & Ht & Hf).
  assert (well_formed {| employees := JArr []; allTasks := JArr [];
                         forms := JArr []; loading := false |}) as Hempty.
  { repeat split; apply array_of_nil. }
  destruct getAllUsers as [users|e];
    [|by rewrite DashboardProofs.load_rejected].
  destruct getAllTasks as [tasks|e];
    [|by rewrite DashboardProofs.load_rejected].
  destruct getAllForms as [forms'|e];
    [|by rewrite DashboardProofs.load_rejected].
  destruct (load_fulfilled_cases users tasks forms' d)
    as [(e' & t' & f' & Hu & Htk & Hfm & ->)| ->]; [|done].
  repeat split; simpl.
  - exact (settled_array_of _ _ _ _ _ _ user_view_object He Hu).
  - exact (settled_array_of _ _ _ _ _ _ task_view_priority Ht Htk).
  - exact (settled_array_of _ _ _ _ _ _ form_view_fields Hf Hfm).
Qed.

Lemma load_keeps_shape_witness :
  well_formed mounted
  /\ well_formed (loadDashboardData (Normal users_failure)
                    (Normal tasks_response) (Normal forms_response)
                    mounted).2.
Proof.
  assert (well_formed mounted) as H.
  { repeat split; apply array_of_nil. }
  split; [exact H|].
  apply (load_keeps_shape (Normal users_failure) (Normal tasks_response)
           (Normal forms_response) mounted). exact H.
Defined.

Section StatsProofs.

Variable progress : list JsVal -> option Z.

Lemma filter_elements_length keep items kept :
  filter_elements keep items = Normal kept ->
  (length kept <= length items)%nat.
Proof.
  revert kept. induction items as [|i rest IH]; intros kept H; simpl in H.
  - injection H as <-. done.
  - destruct (keep i) as [b|e]; simpl in H; [|discriminate].
    destruct (filter_elements keep rest) as [k|e]; simpl in H; [|discriminate].
    injection H as <-. specialize (IH k eq_refl).
    destruct b; simpl; lia.
Qed.

Lemma tasks_of_objects tasks emp :
  Forall is_object tasks -> is_object emp ->
  exists mine, tasks_of tasks emp = Normal mine.
Proof.
  intros Ht [props ->]. unfold tasks_of.
  induction Ht as [|t rest [tp ->] _ [mine IH]]; [simpl; eauto|].
  cbn [filter_elements]. rewrite IH. simpl. eauto.
Qed.

(** The two counts of [getEmployeeStats] over the same employees: they
    exist, and no employee is in both. *)
Lemma counts_disjoint tasks emps :
  Forall is_object tasks -> Forall is_object emps ->
  exists active completed,
    filter_elements
      (fun emp =>
         ts ← elements_of (JArr tasks);
         mine ← tasks_of ts emp;
         Normal (is_active (progress mine))) emps = Normal active
    /\ filter_elements
         (fun emp =>
            ts ← elements_of (JArr tasks);
            mine ← tasks_of ts emp;
            Normal (is_completed (progress mine))) emps = Normal completed
    /\ (length active + length completed <= length emps)%nat.
Proof.
  intros Ht He.
  induction He as [|emp rest Hemp _ (active & completed & Ha & Hc & Hlen)];
    simpl.
  - exists [], []. by repeat split.
  - destruct (tasks_of_objects tasks emp Ht Hemp) as [mine Hmine].
    simpl in *. rewrite Hmine. simpl. rewrite Ha, Hc. simpl.
    eexists; eexists. split; [reflexivity|]. split; [reflexivity|].
    unfold is_active, is_completed. destruct (progress mine) as [p|]; simpl.
    + destruct (Z.eqb_spec p 100) as [->|Hne]; simpl; [lia|].
      destruct ((0 <? p) && (p <? 100)); simpl; lia.
    + lia.
Qed.

(** X14: the employee statistics add up.  On a dashboard whose employees
    and tasks are arrays of objects, and for whatever number
    [calculateOnboardingProgress] returns, [getEmployeeStats] does not
    throw, [totalEmployees] is the number of employees, and no employee is
    counted both as active and as completed: the two counts together never
    exceed the total. *)
Theorem employee_stats_bounded d :
  array_of is_object (employees d) ->
  array_of is_object (allTasks d) ->
  exists stats emps,
    getEmployeeStats progress d = Normal stats
    /\ employees d = JArr emps
    /\ totalEmployees stats = length emps
    /\ (activeEmployees stats + completedEmployees stats
        <= totalEmployees stats)%nat.
Proof.
  intros (emps & He & Hemps) (tasks & Ht & Htasks).
  destruct (counts_disjoint tasks emps Htasks Hemps)
    as (active & completed & Ha & Hc & Hlen).
  unfold getEmployeeStats. rewrite He, Ht. simpl.
  simpl in Ha, Hc. rewrite Ha. simpl. rewrite Hc. simpl.
  eexists; exists emps. split; [reflexivity|]. by repeat split.
Qed.

End StatsProofs.

Lemma employee_stats_bounded_witness :
  array_of is_object (employees staffed)
  /\ array_of is_object (allTasks staffed)
  /\ exists stats emps,
       getEmployeeStats OnboardingUtils.calculateOnboardingProgress staffed
       = Normal stats
       /\ employees staffed = JArr emps
       /\ totalEmployees stats = length emps
       /\ (activeEmployees stats + completedEmployees stats
           <= totalEmployees stats)%nat.
Proof.
  assert (array_of is_object (employees staffed)) as He.
  { eexists. split; [reflexivity|]. repeat constructor; by eexists. }
  assert (array_of is_object (allTasks staffed)) as Ht.
  { eexists. split; [reflexivity|]. repeat constructor; by eexists. }
  split; [exact He|]. split; [exact Ht|].
  exact (employee_stats_bounded OnboardingUtils.calculateOnboardingProgress
           staffed He Ht).
Defined.

(** Ann has one task of two done and is active; Bob has his only task done
    and is completed. *)
Example employee_stats_staffed :
  getEmployeeStats OnboardingUtils.calculateOnboardingProgress staffed
  = Normal {| totalEmployees := 2; activeEmployees := 1;
              completedEmployees := 1 |}.
Proof. reflexivity. Qed.

End DashboardMore.

(** * The task management page *)

Module TasksPageProofs.
Import AdminTasksPage.

Lemma includes_true ids x : includes ids x = true <-> x ∈ ids.
Proof. unfold includes. by rewrite bool_decide_eq_true. Qed.

Lemma includes_false ids x : includes ids x = false <-> x ∉ ids.
Proof. unfold includes. by rewrite bool_decide_eq_false. Qed.

Lemma elem_of_bool_filter {A} (p : A -> bool) (l : list A) x :
  x ∈ List.filter p l <-> x ∈ l /\ p x = true.
Proof. rewrite !list_elem_of_In. apply List.filter_In. Qed.

Lemma bool_filter_sublist {A} (p : A -> bool) (l : list A) :
  sublist (List.filter p l) l.
Proof.
  induction l as [|a l IH]; simpl; [constructor|].
  destruct (p a); by constructor.
Qed.

Lemma bool_filter_NoDup {A} (p : A -> bool) (l : list A) :
  NoDup l -> NoDup (List.filter p l).
Proof. intros H. exact (sublist_NoDup _ _ H (bool_filter_sublist p l)). Qed.

Lemma bool_filter_all {A} (p : A -> bool) (l : list A) :
  Forall (fun a => p a = true) l -> List.filter p l = l.
Proof.
  induction 1 as [|a l Ha _ IH]; simpl; [done|]. by rewrite Ha, IH.
Qed.

(** X15: who is offered for a task.  Every displayed employee is one of the
    loaded employees, has the role [user] and matches the search term; the
    displayed list keeps the order of the loaded list; and unless [Show
    All] is on it is the first five matches at most. *)
Theorem displayed_are_users toLowerCase employees searchTerm showAll :
  let found := filteredEmployees toLowerCase employees searchTerm in
  let shown := displayedEmployees toLowerCase employees searchTerm showAll in
  Forall (fun emp => emp ∈ employees /\ role emp = "user"
                     /\ matches toLowerCase searchTerm emp = true) shown
  /\ sublist shown employees
  /\ shown = (if showAll then found else take 5 found)
  /\ (showAll = false -> (length shown <= 5)%nat).
Proof.
  simpl.
  assert (Forall (fun emp => emp ∈ employees /\ role emp = "user"
                    /\ matches toLowerCase searchTerm emp = true)
            (filteredEmployees toLowerCase employees searchTerm)) as Hall.
  { apply Forall_forall. intros emp Hin. unfold filteredEmployees in Hin.
    apply elem_of_bool_filter in Hin as [Hin Hm].
    apply elem_of_bool_filter in Hin as [Hin Hr].
    by apply String.eqb_eq in Hr. }
  assert (sublist (filteredEmployees toLowerCase employees searchTerm)
            employees) as Hsub.
  { unfold filteredEmployees.
    etrans; apply bool_filter_sublist. }
  unfold displayedEmployees. destruct showAll.
  - by repeat split.
  - split; [by apply Forall_take|]. split.
    + etrans; [apply sublist_take|done].
    + split; [done|]. intros _. rewrite length_take. lia.
Qed.

(** The search looks at name, e-mail and department, whatever the case. *)
Example search_examples :
  filteredEmployees lower [ann; root; bob; cy] "SALES" = [ann]
  /\ filteredEmployees lower [ann; root; bob; cy] "x.com" = [ann; bob; cy]
  /\ filteredEmployees lower [ann; root; bob; cy] "root" = []
  /\ displayedEmployees lower [ann; bob; cy; ann; bob; cy] EmptyString false
     = [ann; bob; cy; ann; bob].
Proof. repeat split; reflexivity. Qed.

(** X17: a checkbox changes one employee.  [handleEmployeeToggle] selects
    the employee when it was not selected and deselects it when it was,
    leaves the selection of every other employee and the other fields of
    the form as they were, and never introduces a duplicate. *)
Theorem toggle_flips_one employeeId prev :
  let next := handleEmployeeToggle employeeId prev in
  (employeeId ∈ assignedTo next <-> employeeId ∉ assignedTo prev)
  /\ (forall x, x <> employeeId ->
        (x ∈ assignedTo next <-> x ∈ assignedTo prev))
  /\ (NoDup (assignedTo prev) -> NoDup (assignedTo next))
  /\ title next = title prev /\ description next = description prev
  /\ dueDate next = dueDate prev /\ picture next = picture prev.
Proof.
  simpl. unfold handleEmployeeToggle. simpl.
  destruct (includes (assignedTo prev) employeeId) eqn:Hin.
  - apply includes_true in Hin.
    split; [|split; [|split; [|done]]].
    + split; [|done]. intros H. apply elem_of_bool_filter in H as [_ H].
      by rewrite String.eqb_refl in H.
    + intros x Hx. rewrite elem_of_bool_filter. split; [by intros [? _]|].
      intros H. split; [done|]. by apply negb_true_iff, String.eqb_neq.
    + apply bool_filter_NoDup.
  - apply includes_false in Hin.
    split; [|split; [|split; [|done]]].
    + split; [done|]. intros _. apply elem_of_app. right.
      by apply list_elem_of_singleton.
    + intros x Hx. rewrite elem_of_app, list_elem_of_singleton. tauto.
    + intros Hnd. apply NoDup_app. split; [done|]. split.
      * intros y Hy Hy'. apply list_elem_of_singleton in Hy'. by subst.
      * apply NoDup_singleton.
Qed.

Lemma filter_out_absent (x : string) ids :
  x ∉ ids -> List.filter (fun y => negb (String.eqb y x)) ids = ids.
Proof.
  intros H. apply bool_filter_all, Forall_forall. intros y Hy.
  apply negb_true_iff, String.eqb_neq. intros ->. done.
Qed.

Lemma filter_out_present (x : string) ids :
  NoDup ids -> x ∈ ids ->
  List.filter (fun y => negb (String.eqb y x)) ids ++ [x] ≡ₚ ids.
Proof.
  induction 1 as [|y ids Hy Hnd IH]; intros Hin; [by apply elem_of_nil in Hin|].
  simpl. destruct (String.eqb_spec y x) as [->|Hne]; simpl.
  - rewrite filter_out_absent by done. symmetry. apply Permutation_cons_append.
  - apply elem_of_cons in Hin as [->|Hin]; [done|].
    by rewrite (IH Hin).
Qed.

(** X18: ticking a box twice changes nothing that matters.  For a selection
    without duplicates, toggling the same employee twice gives back the
    same set of selected employees (a deselected and reselected employee
    moves to the end of the list); when the employee was not selected to
    begin with, the form is exactly the one before. *)
Theorem toggle_twice employeeId prev :
  NoDup (assignedTo prev) ->
  let twice := handleEmployeeToggle employeeId
                 (handleEmployeeToggle employeeId prev) in
  assignedTo twice ≡ₚ assignedTo prev
  /\ (employeeId ∉ assignedTo prev -> twice = prev).
Proof.
  intros Hnd. simpl. unfold handleEmployeeToggle. simpl.
  destruct (includes (assignedTo prev) employeeId) eqn:Hin.
  - apply includes_true in Hin.
    assert (includes
              (List.filter (fun x => negb (String.eqb x employeeId))
                 (assignedTo prev)) employeeId = false) as ->.
    { apply includes_false. intros H. apply elem_of_bool_filter in H as [_ H].
      by rewrite String.eqb_refl in H. }
    split; [by apply filter_out_present|done].
  - apply includes_false in Hin.
    assert (includes (assignedTo prev ++ [employeeId]) employeeId = true) as ->.
    { apply includes_true, elem_of_app. right.
      by apply list_elem_of_singleton. }
    rewrite List.filter_app. simpl. rewrite String.eqb_refl. simpl.
    rewrite app_nil_r, filter_out_absent by done.
    split; [done|]. intros _. by destruct prev.
Qed.

Lemma toggle_twice_witness :
  NoDup (assignedTo (with_assignedTo blank ["u1"; "u2"]))
  /\ let twice := handleEmployeeToggle "u1"
                    (handleEmployeeToggle "u1"
                       (with_assignedTo blank ["u1"; "u2"])) in
     assignedTo twice ≡ₚ assignedTo (with_assignedTo blank ["u1"; "u2"])
     /\ ("u1" ∉ assignedTo (with_assignedTo blank ["u1"; "u2"]) ->
         twice = with_assignedTo blank ["u1"; "u2"]).
Proof.
  assert (NoDup (assignedTo (with_assignedTo blank ["u1"; "u2"]))) as H.
  { simpl. apply NoDup_cons. split; [|apply NoDup_singleton].
    intros Hin. apply list_elem_of_singleton in Hin. discriminate Hin. }
  split; [exact H|].
  apply (toggle_twice "u1" (with_assignedTo blank ["u1"; "u2"])). exact H.
Defined.

(** What the loop of the select branch has pushed: only displayed ids that
    were missing, each once, after the ids that were there. *)
Lemma push_missing_spec displayed ids :
  exists added,
    push_missing ids displayed = ids ++ added
    /\ (forall x, x ∈ added -> x ∈ map id displayed /\ x ∉ ids)
    /\ NoDup added
    /\ (forall emp, emp ∈ displayed -> id emp ∈ ids ++ added).
Proof.
  revert ids. induction displayed as [|emp rest IH]; intros ids.
  - exists []. rewrite app_nil_r. split; [done|].
    split; [|split; [constructor|]].
    + intros x Hx. by apply elem_of_nil in Hx.
    + intros e He. by apply elem_of_nil in He.
  - unfold push_missing. simpl. fold (push_missing
      (if includes ids (id emp) then ids else ids ++ [id emp]) rest).
    destruct (includes ids (id emp)) eqn:Hin.
    + apply includes_true in Hin.
      destruct (IH ids) as (added & Heq & Hadd & Hnd & Hall).
      exists added. split; [done|]. split; [|split; [done|]].
      * intros x Hx. destruct (Hadd x Hx) as [H1 H2]. split; [|done].
        simpl. apply elem_of_cons. by right.
      * intros e He. apply elem_of_cons in He as [->|He]; [|by apply Hall].
        apply elem_of_app. by left.
    + apply includes_false in Hin.
      destruct (IH (ids ++ [id emp])) as (added & Heq & Hadd & Hnd & Hall).
      exists (id emp :: added). rewrite Heq, <- app_assoc. simpl.
      split; [done|]. split; [|split].
      * intros x Hx. apply elem_of_cons in Hx as [->|Hx].
        -- split; [|done]. apply elem_of_cons. by left.
        -- destruct (Hadd x Hx) as [H1 H2]. split.
           ++ apply elem_of_cons. by right.
           ++ intros H. apply H2, elem_of_app. by left.
      * apply NoDup_cons. split; [|done]. intros H.
        destruct (Hadd _ H) as [_ H2]. apply H2, elem_of_app. right.
        by apply list_elem_of_singleton.
      * intros e He. apply elem_of_cons in He as [->|He].
        -- apply elem_of_app. right. apply elem_of_cons. by left.
        -- specialize (Hall e He). by rewrite <- app_assoc in Hall.
Qed.

Lemma all_selected_spec displayed formData :
  allDisplayedSelected displayed formData = true
  <-> displayed <> [] /\ forall emp, emp ∈ displayed -> id emp ∈ assignedTo formData.
Proof.
  unfold allDisplayedSelected. rewrite andb_true_iff, forallb_forall.
  split.
  - intros [Hlen Hall]. split.
    + intros ->. discriminate Hlen.
    + intros emp He. apply includes_true, Hall. by apply list_elem_of_In.
  - intros [Hne Hall]. split.
    + destruct displayed; [done|reflexivity].
    + intros emp He. apply includes_true, Hall. by apply list_elem_of_In.
Qed.

(** X19: the [Select All] button toggles.  With at least one employee
    displayed, after [handleSelectAll] every displayed employee is selected
    if some were not, and none is if all were: the button's label changes
    at every click. *)
Theorem select_all_toggles displayed formData :
  displayed <> [] ->
  allDisplayedSelected displayed (handleSelectAll displayed formData)
  = negb (allDisplayedSelected displayed formData).
Proof.
  intros Hne. unfold handleSelectAll.
  destruct (allDisplayedSelected displayed formData) eqn:Hall; simpl.
  - apply not_true_iff_false. rewrite all_selected_spec. intros [_ H].
    destruct displayed as [|emp rest]; [done|].
    specialize (H emp (list_elem_of_here _ _)). simpl in H.
    apply elem_of_bool_filter in H as [_ H].
    apply negb_true_iff, includes_false in H. apply H.
    simpl. apply elem_of_cons. by left.
  - apply all_selected_spec. split; [done|]. intros emp He. simpl.
    destruct (push_missing_spec displayed (assignedTo formData))
      as (added & -> & _ & _ & Hin). by apply Hin.
Qed.

Lemma select_all_toggles_witness :
  [ann; bob] <> []
  /\ allDisplayedSelected [ann; bob]
       (handleSelectAll [ann; bob] (with_assignedTo blank ["u2"]))
     = negb (allDisplayedSelected [ann; bob] (with_assignedTo blank ["u2"])).
Proof.
  split; [discriminate|].
  apply (select_all_toggles [ann; bob] (with_assignedTo blank ["u2"])).
  discriminate.
Defined.

(** X20: [Select All] only touches the displayed employees.  Whichever
    branch [handleSelectAll] takes, an employee that is not displayed is
    selected afterwards exactly if it was before, a selection without
    duplicates stays without duplicates, and the other fields of the form
    are unchanged. *)
Theorem select_all_frame displayed formData :
  let next := handleSelectAll displayed formData in
  (forall x, x ∉ map id displayed ->
     (x ∈ assignedTo next <-> x ∈ assignedTo formData))
  /\ (NoDup (assignedTo formData) -> NoDup (assignedTo next))
  /\ title next = title formData /\ description next = description formData
  /\ dueDate next = dueDate formData /\ picture next = picture formData.
Proof.
  simpl. unfold handleSelectAll.
  destruct (allDisplayedSelected displayed formData); simpl.
  - split; [|split; [apply bool_filter_NoDup|done]].
    intros x Hx. rewrite elem_of_bool_filter. split; [by intros [? _]|].
    intros H. split; [done|]. by apply negb_true_iff, includes_false.
  - destruct (push_missing_spec displayed (assignedTo formData))
      as (added & -> & Hadd & Hnd & _).
    split; [|split; [|done]].
    + intros x Hx. rewrite elem_of_app. split; [|by left].
      intros [H|H]; [done|]. by destruct (Hadd x H).
    + intros H. apply NoDup_app. split; [done|]. split; [|done].
      intros x Hx Hx'. by destruct (Hadd x Hx').
Qed.

(** Two clicks on [Select All]: the displayed employees end up deselected
    and the selection of the one who is not displayed survives. *)
Example select_all_examples :
  assignedTo (handleSelectAll [ann; bob] (with_assignedTo blank ["u3"; "u2"]))
  = ["u3"; "u2"; "u1"]
  /\ assignedTo (handleSelectAll [ann; bob]
                  (handleSelectAll [ann; bob]
                     (with_assignedTo blank ["u3"; "u2"])))
     = ["u3"]
  /\ handleSelectAll [] blank = blank.
Proof. repeat split; reflexivity. Qed.

Lemma count_status_cons status t rest :
  count_status status (t :: rest)
  = ((if String.eqb (task_status t) status then 1 else 0)
     + count_status status rest)%nat.
Proof.
  unfold count_status. simpl. by destruct (String.eqb (task_status t) status).
Qed.

Lemma status_indicator s :
  let one x := if String.eqb s x then 1%nat else 0%nat in
  (one "completed" + one "in-progress" + one "pending" <= 1)%nat
  /\ ((one "completed" + one "in-progress" + one "pending" = 1)%nat
      <-> s ∈ ["completed"; "in-progress"; "pending"]).
Proof.
  simpl. rewrite !elem_of_cons, elem_of_nil.
  destruct (String.eqb_spec s "completed") as [->|Hc];
    [simpl; split; [lia|split; [by left|lia]]|].
  destruct (String.eqb_spec s "in-progress") as [->|Hi];
    [simpl; split; [lia|split; [by right; left|lia]]|].
  destruct (String.eqb_spec s "pending") as [->|Hp];
    [simpl; split; [lia|split; [by right; right; left|lia]]|].
  simpl. split; [lia|]. split; [lia|]. by intros [?|[?|[?|[]]]].
Qed.

(** X21: the counters of the page header never count a task twice.  The
    tasks counted as completed, in progress and pending are together at
    most the total, and they add up to the total exactly when every task
    has one of these three statuses. *)
Theorem status_counters tasks :
  let counted := (count_status "completed" tasks
                  + count_status "in-progress" tasks
                  + count_status "pending" tasks)%nat in
  (counted <= length tasks)%nat
  /\ (counted = length tasks
      <-> Forall (fun t => task_status t
                           ∈ ["completed"; "in-progress"; "pending"]) tasks).
Proof.
  simpl. induction tasks as [|t rest [IHle IHeq]].
  - split; [done|]. split; [constructor|done].
  - rewrite !count_status_cons. simpl length.
    destruct (status_indicator (task_status t)) as [Hle Heq]. simpl in Hle, Heq.
    split; [lia|]. rewrite Forall_cons, <- Heq, <- IHeq. lia.
Qed.

Lemma find_employee_some employees x emp :
  find_employee employees x = Some emp -> emp ∈ employees /\ id emp = x.
Proof.
  intros H. apply List.find_some in H as [Hin Heq].
  split; [by apply list_elem_of_In|by apply String.eqb_eq].
Qed.

Lemma find_employee_none employees x :
  find_employee employees x = None <-> forall emp, emp ∈ employees -> id emp <> x.
Proof.
  split.
  - intros H emp He Heq. apply list_elem_of_In in He.
    apply (List.find_none _ _ H) in He. by apply String.eqb_neq in He.
  - intros H. destruct (find_employee employees x) as [emp|] eqn:Hf; [|done].
    apply find_employee_some in Hf as [Hin Heq]. by destruct (H emp Hin).
Qed.

(** X22: the [Assigned To] column names only real assignees.  Every
    employee named for a task is a loaded employee whose id is one of the
    ids the task is assigned to, and the column falls back to [Unassigned]
    exactly when no loaded employee has any of these ids; a task with no
    [userId], or with the empty string, is assigned to nobody. *)
Theorem assigned_column_names employees row :
  let found := assignedEmployees employees row in
  Forall (fun emp => emp ∈ employees /\ id emp ∈ assignedIds row) found
  /\ (found = []
      <-> forall emp, emp ∈ employees -> id emp ∉ assignedIds row)
  /\ assigned_column employees row
     = (if bool_decide (found = []) then ["Unassigned"] else map name found).
Proof.
  simpl. split; [|split].
  - apply Forall_forall. intros emp He. unfold assignedEmployees in He.
    apply list_elem_of_omap in He as (x & Hx & Hf).
    apply find_employee_some in Hf as [Hin <-]. done.
  - unfold assignedEmployees. split.
    + intros Hnil emp He Hid.
      destruct (find_employee employees (id emp)) as [e|] eqn:Hf.
      * assert (e ∈ omap (find_employee employees) (assignedIds row)) as H.
        { apply list_elem_of_omap. eauto. }
        rewrite Hnil in H. by apply elem_of_nil in H.
      * by apply (proj1 (find_employee_none _ _) Hf emp He).
    + intros H.
      destruct (omap (find_employee employees) (assignedIds row))
        as [|e rest] eqn:Ho; [done|].
      assert (e ∈ omap (find_employee employees) (assignedIds row)) as He.
      { rewrite Ho. apply list_elem_of_here. }
      apply list_elem_of_omap in He as (x & Hx & Hf).
      apply find_employee_some in Hf as [Hin <-]. by destruct (H e Hin).
  - unfold assigned_column.
    destruct (assignedEmployees employees row) as [|e rest]; [done|].
    by rewrite bool_decide_eq_false_2.
Qed.

(** A task assigned to a loaded and an unknown employee, one assigned by a
    single id, and one with no assignee. *)
Example assigned_column_examples :
  assigned_column [ann; bob]
    (mkTask "t1" "Badge" "Get a badge" "pending" "2024-05-01"
       (Some (ManyUsers ["u2"; "u9"; "u1"])) None)
  = ["Bob"; "Ann"]
  /\ assigned_column [ann; bob]
       (mkTask "t2" "Laptop" "Get a laptop" "pending" "2024-05-01"
          (Some (OneUser "u1")) None)
     = ["Ann"]
  /\ assigned_column [ann; bob]
       (mkTask "t3" "Tour" "Office tour" "pending" "2024-05-01" None None)
     = ["Unassigned"]
  /\ assigned_column [ann; bob]
       (mkTask "t4" "Lunch" "Team lunch" "pending" "2024-05-01"
          (Some (OneUser EmptyString)) None)
     = ["Unassigned"].
Proof. repeat split; reflexivity. Qed.

End TasksPageProofs.

(** * Loading and creating tasks *)

Module TasksDataProofs.
Import AdminTasksPage AdminTasksData.

Ltac unfold_page :=
  unfold handleCreateTask, handleModalClose, loadData, store_records,
    try_finally, try_catch, when, bind, ret, eval, modify, setTasks,
    setEmployees, setIsCreateModalOpen, setLoading, setFormData,
    setSearchTerm, setShowAllEmployees, alert in *.

Ltac load_case :=
  eexists; eexists; (split; [reflexivity|]); (split; [done|]);
  intros; simplify_eq; first [done | split; congruence | congruence].

(** What [loadData] leaves alone, and that it cannot fail. *)
Lemma loadData_runs getAllTasks getAllUsers p :
  exists ts es,
    loadData getAllTasks getAllUsers p
    = (Normal tt,
       {| tasks := ts; employees := es;
          isCreateModalOpen := isCreateModalOpen p; loading := false;
          formData := formData p; searchTerm := searchTerm p;
          showAllEmployees := showAllEmployees p; alerts := alerts p |})
    /\ (is_normal getAllTasks && is_normal getAllUsers = false ->
        ts = JArr [] /\ es = JArr [])
    /\ (forall rt ru dt du vt vu,
          getAllTasks = Normal rt -> getAllUsers = Normal ru ->
          success_and_data rt = Normal true -> get rt "data" = Normal dt ->
          array_map task_record dt = Normal vt ->
          success_and_data ru = Normal true -> get ru "data" = Normal du ->
          array_map employee_record du = Normal vu ->
          ts = vt /\ es = vu).
Proof.
  unfold_page.
  destruct getAllTasks as [rt|e]; simpl; [|load_case].
  destruct getAllUsers as [ru|e]; simpl; [|load_case].
  destruct (success_and_data rt) as [[|]|e] eqn:Hst; simpl; [| |load_case].
  - destruct (get rt "data") as [dt|e] eqn:Hdt; simpl; [|load_case].
    destruct (array_map task_record dt) as [vt|e] eqn:Hvt; simpl;
      [|load_case].
    destruct (success_and_data ru) as [[|]|e] eqn:Hsu; simpl;
      [|load_case|load_case].
    destruct (get ru "data") as [du|e] eqn:Hdu; simpl; [|load_case].
    destruct (array_map employee_record du) as [vu|e] eqn:Hvu; simpl;
      load_case.
  - destruct (success_and_data ru) as [[|]|e] eqn:Hsu; simpl;
      [|load_case|load_case].
    destruct (get ru "data") as [du|e] eqn:Hdu; simpl; [|load_case].
    destruct (array_map employee_record du) as [vu|e] eqn:Hvu; simpl;
      load_case.
Qed.

(** X23: reloading the task page cannot fail and touches only its data.
    Whatever the two requests do, [loadData] completes with [loading]
    false and leaves the dialog, the form, the search and the messages as
    they were; if either request is rejected both collections are emptied;
    and if both answers have truthy [success] and [data] whose records map
    without an exception, the collections are exactly the mapped records. *)
Theorem loadData_outcome getAllTasks getAllUsers p :
  let r := loadData getAllTasks getAllUsers p in
  r.1 = Normal tt
  /\ loading r.2 = false
  /\ (isCreateModalOpen r.2 = isCreateModalOpen p
      /\ formData r.2 = formData p
      /\ searchTerm r.2 = searchTerm p
      /\ showAllEmployees r.2 = showAllEmployees p
      /\ alerts r.2 = alerts p)
  /\ (is_normal getAllTasks && is_normal getAllUsers = false ->
      tasks r.2 = JArr [] /\ employees r.2 = JArr [])
  /\ (forall rt ru dt du vt vu,
        getAllTasks = Normal rt -> getAllUsers = Normal ru ->
        success_and_data rt = Normal true -> get rt "data" = Normal dt ->
        array_map task_record dt = Normal vt ->
        success_and_data ru = Normal true -> get ru "data" = Normal du ->
        array_map employee_record du = Normal vu ->
        tasks r.2 = vt /\ employees r.2 = vu).
Proof.
  simpl.
  destruct (loadData_runs getAllTasks getAllUsers p)
    as (ts & es & -> & Hrej & Hok).
  simpl. split; [done|]. split; [done|]. split; [done|].
  split; [exact Hrej|exact Hok].
Qed.

Lemma loadData_outcome_witness :
  let r := loadData (Normal one_task) (Throw (Error "Failed to fetch"))
             editing in
  is_normal (Normal one_task)
  && is_normal (@Throw JsVal (Error "Failed to fetch")) = false
  /\ tasks r.2 = JArr [] /\ employees r.2 = JArr []
  /\ formData r.2 = formData editing.
Proof.
  destruct (loadData_outcome (Normal one_task)
              (Throw (Error "Failed to fetch")) editing)
    as (_ & _ & (_ & Hform & _) & Hrej & _).
  split; [reflexivity|].
  destruct (Hrej eq_refl) as [Ht He].
  split; [exact Ht|]. split; [exact He|exact Hform].
Defined.


(** X24: creating a task ends with exactly one message and never loses a
    form that was not sent.  [handleCreateTask] never throws and shows
    exactly one alert.  When the answer reports success, the dialog is
    closed, the form, the search and [Show All] are reset, the data is
    reloaded and the message is [Task created successfully!]; in every
    other case (a refusal, no answer object, a thrown call) nothing but
    the message changes, so the dialog stays open on the form as it was
    typed. *)
Theorem create_task_outcome createTask getAllTasks getAllUsers p :
  let r := handleCreateTask createTask getAllTasks getAllUsers p in
  r.1 = Normal tt
  /\ exists message,
       alerts r.2 = alerts p ++ [message]
       /\ (creates createTask = true ->
           message = "Task created successfully!"
           /\ isCreateModalOpen r.2 = false
           /\ formData r.2 = blank
           /\ searchTerm r.2 = EmptyString
           /\ showAllEmployees r.2 = false
           /\ loading r.2 = false
           /\ r.2 = (alert message
                      (loadData getAllTasks getAllUsers
                         (handleModalClose p).2).2).2)
       /\ (creates createTask = false -> r.2 = (alert message p).2).
Proof.
  simpl.
  unfold handleCreateTask, handleModalClose, try_catch, bind, eval, ret,
    modify, setIsCreateModalOpen, setSearchTerm, setShowAllEmployees,
    setFormData, alert.
  simpl.
  destruct createTask as [response|e]; simpl.
  2: { split; [done|]. eexists. split; [reflexivity|]. by split. }
  destruct (get response "success") as [success|e] eqn:Hs; simpl.
  2: { split; [done|]. eexists. split; [reflexivity|]. by split. }
  destruct (truthy success) eqn:Ht.
  - destruct (loadData_runs getAllTasks getAllUsers
                {| tasks := tasks p; employees := employees p;
                   isCreateModalOpen := false; loading := loading p;
                   formData := blank; searchTerm := EmptyString;
                   showAllEmployees := false; alerts := alerts p |})
      as (ts & es & -> & _). simpl.
    split; [done|]. eexists. split; [reflexivity|]. split; [|done].
    intros _. by repeat split.
  - destruct response; try discriminate; simpl in *;
      (split; [done|]); eexists; (split; [reflexivity|]); by split.
Qed.

Lemma create_task_outcome_witness :
  creates (Normal rejected_task) = false
  /\ let r := handleCreateTask (Normal rejected_task) (Normal one_task)
                (Normal one_task) editing in
     alerts r.2 = ["Title is required"]
     /\ formData r.2 = formData editing
     /\ isCreateModalOpen r.2 = true.
Proof.
  split; [reflexivity|].
  destruct (create_task_outcome (Normal rejected_task) (Normal one_task)
              (Normal one_task) editing) as (_ & message & Ha & _ & Hfail).
  specialize (Hfail eq_refl). vm_compute in Ha. injection Ha as <-.
  intros r. change (r.2 = (alert "Title is required" editing).2) in Hfail.
  rewrite Hfail. repeat split; reflexivity.
Defined.

(** A task is created: the dialog closes on a blank form and the task list
    is reloaded. *)
Example create_task_example :
  let r := handleCreateTask (Normal (JObj [("success", JBool true)]))
             (Normal one_task) (Normal rejected_task) editing in
  alerts r.2 = ["Task created successfully!"]
  /\ isCreateModalOpen r.2 = false
  /\ formData r.2 = blank
  /\ tasks r.2
     = JArr [JObj [("id", JStr "t1"); ("title", JStr "Badge");
                   ("description", JUndefined); ("status", JUndefined);
                   ("dueDate", JUndefined);
                   ("userId", JArr [JStr "u1"]);
                   ("picture", JUndefined)]]
  /\ employees r.2 = JArr [].
Proof. repeat split; reflexivity. Qed.

End TasksDataProofs.

(** * The session store over a storage that may fail *)

Ltac unfold_on :=
  unfold initialize_on, login_on, login_try_on, logout_on, storage_getItem,
    storage_setItem, storage_removeItem, on_storage in *;
  unfold_stmt.

(** Where the storage can be read, the mount effect and [logout] are the
    ones of a working storage; where it also accepts every write, so is
    [login]. *)
Lemma initialize_on_readable S JSON_parse w :
  window w = None \/ denied S = false ->
  initialize_on S JSON_parse w = initialize JSON_parse w.
Proof.
  intros H. unfold_on. destruct w as [u t l [win|] ev]; simpl; [|done].
  destruct H as [H|H]; [discriminate H|]. rewrite H. simpl.
  destruct (truthy_item _ && truthy_item _); simpl; [|done].
  destruct (JSON_parse _); simpl; done.
Qed.

Lemma logout_on_readable S w :
  window w = None \/ denied S = false -> logout_on S w = logout w.
Proof.
  intros H. unfold_on. destruct w as [u t l [win|] ev]; simpl; [|done].
  destruct H as [H|H]; [discriminate H|]. by rewrite H.
Qed.

Lemma login_on_accepting S JSON_stringify api email password w :
  denied S = false ->
  (forall contents key value, refuses S contents key value = false) ->
  login_on S JSON_stringify api email password w
  = login JSON_stringify api email password w.
Proof.
  intros Hd Hr. unfold_on. simpl.
  destruct (api email password) as [r|e]; simpl; [|done].
  destruct (success_and_data r) as [[|]|e]; simpl; try done.
  destruct (get r "data") as [d|e]; simpl; [|done].
  destruct (get d "accessToken") as [t|e]; simpl; [|done].
  destruct (get d "user") as [u|e]; simpl; [|done].
  destruct (user_literal u) as [rec|e]; simpl; [|done].
  destruct (window w) as [win|]; simpl; [|done].
  rewrite ?Hd, ?Hr. simpl. by rewrite ?Hd, ?Hr.
Qed.

(** C7 as stated fails in a browser where site data is blocked: the reads
    of the mount effect are outside its [try], the [SecurityError] of the
    first one leaves the effect, and [setLoading(false)] is never
    reached. *)
Lemma initialize_blocked_keeps_loading :
  let r := initialize_on blocked json_parse (mount (Some sample_store)) in
  r.1 = Throw (Error "SecurityError")
  /\ loading r.2 = true
  /\ times clears_loading (events r.2) = 0%nat.
Proof. repeat split; reflexivity. Qed.

(** C7, amended: on every startup without a window or in which reading
    [localStorage] does not throw, whatever is stored and whatever
    [JSON.parse] makes of it (the session restored, nothing stored, a parse
    that fails), the mount effect completes, calls [setLoading(false)]
    exactly once, as its last action, and leaves [loading] false. *)
Theorem initialize_on_clears_loading_once S JSON_parse win :
  win = None \/ denied S = false ->
  let r := initialize_on S JSON_parse (mount win) in
  r.1 = Normal tt
  /\ loading r.2 = false
  /\ times clears_loading (events r.2) = 1%nat
  /\ last (events r.2) = Some (SetLoading false).
Proof.
  intros H. unfold_on. destruct win as [win|]; simpl; [|done].
  destruct H as [H|H]; [discriminate H|]. rewrite H. simpl.
  destruct (truthy_item _ && truthy_item _); simpl; [|done].
  destruct (JSON_parse _); simpl; [done|]. rewrite ?H. simpl. by rewrite ?H.
Qed.

Lemma initialize_on_clears_loading_once_witness :
  (Some corrupt_store = None \/ denied full = false)
  /\ let r := initialize_on full json_parse (mount (Some corrupt_store)) in
     r.1 = Normal tt
     /\ loading r.2 = false
     /\ times clears_loading (events r.2) = 1%nat
     /\ last (events r.2) = Some (SetLoading false).
Proof.
  assert (Some corrupt_store = None \/ denied full = false) as H
    by (right; reflexivity).
  split; [exact H|].
  apply (initialize_on_clears_loading_once full json_parse
           (Some corrupt_store)). exact H.
Defined.

(** C4 as stated fails in a browser whose storage takes no write: the
    sample answer is accepted, but [setItem] throws inside the [try], so
    neither key is stored and [login] resolves to [false]. *)
Lemma login_sample_refused :
  let r := login_on full json_stringify (answering sample_response)
             "a@x.com" "secret" visitor in
  r.1 = Normal false
  /\ exists win,
       window r.2 = Some win
       /\ localStorage win !! "authToken" = None
       /\ localStorage win !! "userData" = None.
Proof.
  split; [reflexivity|]. exists empty_store. repeat split; reflexivity.
Qed.

(** Where only the second write is refused, [login] resolves to [false]
    with the token stored and the identity not. *)
Example login_sample_half_stored :
  let r := login_on cramped json_stringify (answering sample_response)
             "a@x.com" "secret" visitor in
  r.1 = Normal false
  /\ exists win,
       window r.2 = Some win
       /\ localStorage win !! "authToken" = Some "T"
       /\ localStorage win !! "userData" = None.
Proof.
  split; [reflexivity|]. eexists. repeat split; reflexivity.
Qed.

(** C4, amended: in a browser whose storage can be named and accepts the
    two writes, a login answered by the sample response resolves to [true],
    sets [token] to [T] and [user] to the identity of the response, and
    stores the token under [authToken] and the serialized identity under
    [userData]. *)
Theorem login_on_sample S JSON_stringify api email password w win :
  window w = Some win ->
  api email password = Normal sample_response ->
  denied S = false ->
  refuses S (localStorage win) "authToken" "T" = false ->
  refuses S (<["authToken" := "T"]> (localStorage win)) "userData"
    (JSON_stringify sample_identity) = false ->
  let r := login_on S JSON_stringify api email password w in
  r.1 = Normal true
  /\ token r.2 = JStr "T"
  /\ user r.2 = sample_identity
  /\ Authenticated r.2
  /\ loading r.2 = false
  /\ exists win',
       window r.2 = Some win'
       /\ localStorage win' !! "authToken" = Some "T"
       /\ localStorage win' !! "userData"
          = Some (JSON_stringify sample_identity).
Proof.
  intros Hw Ha Hd Hr1 Hr2. unfold sample_identity in *.
  unfold_on. simpl. rewrite Ha. simpl.
  rewrite Hw. simpl. rewrite ?Hd, ?Hr1. simpl. rewrite ?Hd, ?Hr2. simpl.
  repeat split; try done.
  eexists. split; [reflexivity|]. simpl.
  rewrite lookup_insert_ne by done. rewrite !lookup_insert_eq. done.
Qed.

Lemma login_on_sample_witness :
  let r := login_on working json_stringify (answering sample_response)
             "a@x.com" "secret" visitor in
  r.1 = Normal true
  /\ token r.2 = JStr "T"
  /\ user r.2 = sample_identity
  /\ Authenticated r.2
  /\ loading r.2 = false
  /\ exists win',
       window r.2 = Some win'
       /\ localStorage win' !! "authToken" = Some "T"
       /\ localStorage win' !! "userData"
          = Some (json_stringify sample_identity).
Proof.
  apply (login_on_sample working json_stringify (answering sample_response)
           "a@x.com" "secret" visitor empty_store); reflexivity.
Defined.

(** X2: in a browser whose storage can be named and accepts the two
    writes, every answer with truthy [success] and [data] that carries a
    string as [accessToken] and a [user] that is neither null nor undefined
    is accepted: [login] resolves to [true], [token] is the string, [user]
    is the record built from [data.user] (its [id] is [_id] when that is
    truthy and [id] otherwise, the other five fields are copied), and
    storage gains exactly the two keys, the token and the record as
    JSON. *)
Theorem login_on_accepts S JSON_stringify api email password
    w win r s d t u :
  window w = Some win ->
  api email password = Normal r ->
  get r "success" = Normal s -> truthy s = true ->
  get r "data" = Normal d -> truthy d = true ->
  get d "accessToken" = Normal (JStr t) ->
  get d "user" = Normal u -> present u ->
  denied S = false ->
  refuses S (localStorage win) "authToken" t = false ->
  (forall record,
      user_literal u = Normal record ->
      refuses S (<["authToken" := t]> (localStorage win)) "userData"
        (JSON_stringify record) = false) ->
  exists record,
    let res := login_on S JSON_stringify api email password w in
    res.1 = Normal true
    /\ token res.2 = JStr t /\ user res.2 = record /\ loading res.2 = false
    /\ get record "id" = id_of u
    /\ Forall (fun k => get record k = get u k)
         ["name"; "email"; "phone"; "role"; "startDate"]
    /\ window res.2 =
       Some {| localStorage :=
                 <["userData" := JSON_stringify record]>
                   (<["authToken" := t]> (localStorage win));
               location_href := location_href win |}.
Proof.
  intros Hw Ha Hs Hts Hd Htd Ht Hu Hp Hden Hr1 Hr2.
  assert (success_and_data r = Normal true) as Hacc.
  { unfold success_and_data. rewrite Hs. simpl. rewrite Hts, Hd. simpl.
    by rewrite Htd. }
  destruct (user_literal_present u Hp) as [props Hrec].
  specialize (Hr2 _ Hrec).
  assert (get (JObj props) "id" = id_of u
          /\ Forall (fun k => get (JObj props) k = get u k)
               ["name"; "email"; "phone"; "role"; "startDate"]) as Hfields.
  { unfold present in Hp. unfold user_literal in Hrec.
    destruct u; try discriminate; simpl in Hrec; simpl.
    all: try (injection Hrec as <-; repeat split; repeat constructor).
    destruct (id_of (JObj props0)) as [i|e] eqn:Hid; simpl in Hrec;
      [|discriminate].
    injection Hrec as <-. repeat split; repeat constructor. }
  exists (JObj props).
  unfold_on. simpl. rewrite Ha. simpl. rewrite Hacc. simpl. rewrite Hd.
  simpl. rewrite Ht. simpl. rewrite Hu. simpl. rewrite Hrec. simpl.
  rewrite Hw. simpl. rewrite ?Hden, ?Hr1. simpl. rewrite ?Hden, ?Hr2. simpl.
  destruct Hfields as [Hid Hall]. by repeat split.
Qed.

Lemma login_on_accepts_witness :
  exists record,
    let res := login_on working json_stringify (answering admin_response)
                 "root@x.com" "secret" visitor in
    res.1 = Normal true
    /\ token res.2 = JStr "T" /\ user res.2 = record
    /\ loading res.2 = false
    /\ get record "id" = Normal (JStr "9")
    /\ Forall (fun k => get record k
                        = get (JObj [("_id", JStr "9"); ("name", JStr "Root");
                                     ("role", JStr "admin")]) k)
         ["name"; "email"; "phone"; "role"; "startDate"]
    /\ window res.2 =
       Some {| localStorage :=
                 <["userData" := json_stringify record]>
                   (<["authToken" := "T"]> (localStorage empty_store));
               location_href := location_href empty_store |}.
Proof.
  apply (login_on_accepts working json_stringify (answering admin_response)
           "root@x.com" "secret" visitor empty_store admin_response
           (JBool true)
           (JObj [("accessToken", JStr "T");
                  ("user", JObj [("_id", JStr "9"); ("name", JStr "Root");
                                 ("role", JStr "admin")])])
           "T"
           (JObj [("_id", JStr "9"); ("name", JStr "Root");
                  ("role", JStr "admin")])); reflexivity.
Defined.

(** [login] settles and clears [loading] over every storage: a write that
    throws is caught like any other exception of the [try] block. *)
Lemma login_on_settles S JSON_stringify api email password w :
  exists b w',
    login_on S JSON_stringify api email password w = (Normal b, w')
    /\ loading w' = false.
Proof.
  unfold_on. simpl.
  destruct (api email password) as [r|e]; simpl;
    [|by do 2 eexists].
  destruct (success_and_data r) as [[|]|e]; simpl;
    [|by do 2 eexists|by do 2 eexists].
  destruct (get r "data") as [d|e]; simpl; [|by do 2 eexists].
  destruct (get d "accessToken") as [t|e]; simpl; [|by do 2 eexists].
  destruct (get d "user") as [u|e]; simpl; [|by do 2 eexists].
  destruct (user_literal u) as [rec|e]; simpl; [|by do 2 eexists].
  destruct (window w) as [win|]; simpl; [|by do 2 eexists].
  destruct (denied S); simpl; [by do 2 eexists|].
  destruct (refuses S (localStorage win) _ _); simpl; [by do 2 eexists|].
  destruct (refuses S _ _ _); simpl; by do 2 eexists.
Qed.

(** X9: no session is left busy where the storage can be read.  In a
    browser in which naming [localStorage] does not throw, after the mount
    effect and after every [login] and [logout] that follows it, [loading]
    is false, for every stored content, every parser, every answer of the
    API client, and whether the storage accepts the writes of [login] or
    refuses them. *)
Theorem readable_sessions_not_loading S JSON_parse JSON_stringify w :
  denied S = false ->
  reachable_on S JSON_parse JSON_stringify w -> loading w = false.
Proof.
  intros Hd.
  induction 1 as [win|api email password w Hw IH|w Hw IH].
  - rewrite initialize_on_readable by (by right).
    destruct (initialize_runs_clear JSON_parse (mount win)) as (w' & -> & H).
    exact H.
  - destruct (login_on_settles S JSON_stringify api email password w)
      as (b & w' & -> & H). exact H.
  - rewrite logout_on_readable by (by right).
    unfold_stmt. simpl. by destruct (window w).
Qed.

Lemma readable_sessions_not_loading_witness :
  denied full = false
  /\ reachable_on full json_parse json_stringify
       (login_on full json_stringify (answering sample_response)
          "a@x.com" "secret"
          (initialize_on full json_parse (mount (Some sample_store))).2).2
  /\ loading
       (login_on full json_stringify (answering sample_response)
          "a@x.com" "secret"
          (initialize_on full json_parse (mount (Some sample_store))).2).2
     = false.
Proof.
  assert (reachable_on full json_parse json_stringify
            (login_on full json_stringify (answering sample_response)
               "a@x.com" "secret"
               (initialize_on full json_parse
                  (mount (Some sample_store))).2).2) as H.
  { apply reach_on_login, reach_on_initialize. }
  split; [reflexivity|]. split; [exact H|].
  exact (readable_sessions_not_loading full json_parse json_stringify _
           eq_refl H).
Defined.

(** * The dashboard when the handling of a response throws *)

Module DashboardHandlingProofs.
Import AdminDashboard DashboardExamples DashboardHandling.

Lemma take_breaks response select view set d :
  breaks select view response ->
  exists e, take response select view set d = (Throw e, d).
Proof.
  unfold take, when, bind, eval, ret.
  intros [[e H]|(H & data & e & Hd & Hm)]; rewrite H; simpl; [eauto|].
  rewrite Hd. simpl.
  destruct (select data) as [records|e'] eqn:Hsel; simpl in *; [|eauto].
  rewrite Hm. eauto.
Qed.

(** The handling of a response either settles its collection or throws,
    and never both. *)
Lemma settled_or_breaks select view response old :
  (exists new, settled select view response old new)
  \/ breaks select view response.
Proof.
  unfold settled, declined, delivers, breaks.
  destruct (success_and_data response) as [[|]|e] eqn:Hs; [| |eauto].
  - destruct (get response "data") as [data|e] eqn:Hd.
    + destruct (select data) as [records|e] eqn:Hsel.
      * destruct (array_map view records) as [views|e] eqn:Hm.
        -- left. exists views. right. split; [done|].
           exists data, records. done.
        -- right. right. split; [done|]. exists data, e.
           split; [done|]. rewrite Hsel. exact Hm.
      * right. right. split; [done|]. exists data, e.
        split; [done|]. by rewrite Hsel.
    + exfalso. unfold success_and_data in Hs.
      destruct response; simpl in *; discriminate.
  - left. exists old. by left.
Qed.

Lemma breaks_not_settled select view response old new :
  breaks select view response -> ~ settled select view response old new.
Proof.
  unfold settled, declined, delivers, breaks.
  intros [[e H]|(H & data & e & Hd & Hm)].
  - intros [[H' _]|[H' _]]; congruence.
  - intros [[H' _]|(_ & data' & records & Hd' & Hsel & Hmap)];
      [congruence|].
    rewrite Hd in Hd'. injection Hd' as <-. rewrite Hsel in Hm.
    simpl in Hm. congruence.
Qed.

(** C6, amended: whatever the three requests do, the load completes and
    leaves [loading] false.  When the three requests are all fulfilled and
    the handling of each response completes, a response whose [success] or
    [data] is falsy leaves its own collection as it was, and a response
    whose records map without an exception replaces its collection by the
    mapped views.  When a request is rejected, or the handling of a
    fulfilled response throws, the three collections are all set to the
    empty array, also those whose own response delivered records. *)
Theorem load_handles_failures getAllUsers getAllTasks getAllForms d :
  let r := loadDashboardData getAllUsers getAllTasks getAllForms d in
  let all_emptied :=
    (Normal tt,
     {| employees := JArr []; allTasks := JArr []; forms := JArr [];
        loading := false |}) in
  r.1 = Normal tt
  /\ loading r.2 = false
  /\ (forall users tasks forms' e' t' f',
        getAllUsers = Normal users ->
        getAllTasks = Normal tasks ->
        getAllForms = Normal forms' ->
        settled Normal user_view users (employees d) e' ->
        settled Normal task_view tasks (allTasks d) t' ->
        settled forms_of form_view forms' (forms d) f' ->
        r = (Normal tt,
             {| employees := e'; allTasks := t'; forms := f';
                loading := false |}))
  /\ (forall users tasks forms',
        getAllUsers = Normal users ->
        getAllTasks = Normal tasks ->
        getAllForms = Normal forms' ->
        breaks Normal user_view users
        \/ breaks Normal task_view tasks
        \/ breaks forms_of form_view forms' ->
        r = all_emptied)
  /\ (is_normal getAllUsers && is_normal getAllTasks && is_normal getAllForms
      = false ->
      r = all_emptied).
Proof.
  simpl.
  assert (forall users tasks forms',
            breaks Normal user_view users
            \/ breaks Normal task_view tasks
            \/ breaks forms_of form_view forms' ->
            loadDashboardData (Normal users) (Normal tasks) (Normal forms') d
            = (Normal tt,
               {| employees := JArr []; allTasks := JArr [];
                  forms := JArr []; loading := false |})) as Hbreak.
  { intros users tasks forms' H.
    destruct (DashboardMore.load_fulfilled_cases users tasks forms' d)
      as [(e' & t' & f' & Hu & Ht & Hf & _)|Hall]; [|exact Hall].
    destruct H as [H|[H|H]]; exfalso;
      eapply breaks_not_settled; eauto. }
  assert (forall users tasks forms',
            (loadDashboardData (Normal users) (Normal tasks)
               (Normal forms') d).1 = Normal tt
            /\ loading (loadDashboardData (Normal users) (Normal tasks)
                          (Normal forms') d).2 = false) as Hdone.
  { intros users tasks forms'.
    destruct (DashboardMore.load_fulfilled_cases users tasks forms' d)
      as [(e' & t' & f' & _ & _ & _ & ->)| ->]; by split. }
  split; [|split]; [| |split; [|split]].
  - destruct (is_normal getAllUsers && is_normal getAllTasks
              && is_normal getAllForms) eqn:Hn.
    + destruct getAllUsers, getAllTasks, getAllForms; try discriminate.
      apply Hdone.
    + by rewrite DashboardProofs.load_rejected.
  - destruct (is_normal getAllUsers && is_normal getAllTasks
              && is_normal getAllForms) eqn:Hn.
    + destruct getAllUsers, getAllTasks, getAllForms; try discriminate.
      apply Hdone.
    + by rewrite DashboardProofs.load_rejected.
  - intros * -> -> ->. apply DashboardProofs.load_fulfilled.
  - intros * -> -> ->. apply Hbreak.
  - apply DashboardProofs.load_rejected.
Qed.

Lemma load_handles_failures_witness :
  (settled Normal user_view users_failure (employees mounted) (JArr [])
   /\ settled Normal task_view tasks_response (allTasks mounted) tasks_views
   /\ settled forms_of form_view forms_response (forms mounted) (JArr [])
   /\ loadDashboardData (Normal users_failure) (Normal tasks_response)
        (Normal forms_response) mounted
      = (Normal tt,
         {| employees := JArr []; allTasks := tasks_views;
            forms := JArr []; loading := false |}))
  /\ (delivers Normal task_view tasks_response tasks_views
      /\ breaks forms_of form_view forms_garbled
      /\ loadDashboardData (Normal users_failure) (Normal tasks_response)
           (Normal forms_garbled) mounted
         = (Normal tt,
            {| employees := JArr []; allTasks := JArr [];
               forms := JArr []; loading := false |})).
Proof.
  assert (settled Normal user_view users_failure (employees mounted)
            (JArr [])) as Hu.
  { left. split; reflexivity. }
  assert (delivers Normal task_view tasks_response tasks_views) as Hd.
  { split; [reflexivity|].
    eexists; eexists. repeat split; reflexivity. }
  assert (settled forms_of form_view forms_response (forms mounted)
            (JArr [])) as Hf.
  { right. split; [reflexivity|].
    eexists; eexists. repeat split; reflexivity. }
  assert (breaks forms_of form_view forms_garbled) as Hb.
  { right. split; [reflexivity|].
    exists (JStr "none"), TypeError. split; reflexivity. }
  split.
  - split; [exact Hu|]. split; [by right|]. split; [exact Hf|].
    destruct (load_handles_failures (Normal users_failure)
                (Normal tasks_response) (Normal forms_response) mounted)
      as (_ & _ & H & _).
    apply (H users_failure tasks_response forms_response);
      first [reflexivity | assumption | by right].
  - split; [exact Hd|]. split; [exact Hb|].
    destruct (load_handles_failures (Normal users_failure)
                (Normal tasks_response) (Normal forms_garbled) mounted)
      as (_ & _ & _ & H & _).
    apply (H users_failure tasks_response forms_garbled);
      first [reflexivity | by right; right].
Defined.

End DashboardHandlingProofs.

(** * The search of the task page over the loaded records *)

Module TasksSearchProofs.
Import AdminTasksSearch.

Lemma includes_empty s : AdminTasksPage.string_includes s EmptyString = true.
Proof. by destruct s. Qed.

Lemma get_present emp k : present emp -> exists v, get emp k = Normal v.
Proof. unfold present. destruct emp; simpl; intros H; try discriminate; eauto. Qed.

Lemma users_of_present employees :
  Forall present employees -> Forall present (users_of employees).
Proof.
  intros H. apply Forall_forall. intros emp Hin.
  rewrite Forall_forall in H. apply H.
  unfold users_of in Hin. rewrite list_elem_of_In in Hin.
  apply List.filter_In in Hin as [Hin _]. by rewrite list_elem_of_In.
Qed.

(** The first filter keeps the records whose role is [user]. *)
Lemma filter_users employees :
  Forall present employees ->
  DashboardStats.filter_elements is_user employees
  = Normal (users_of employees).
Proof.
  induction 1 as [|emp rest Hp _ IH]; [done|].
  cbn [DashboardStats.filter_elements users_of List.filter].
  rewrite IH. unfold is_user.
  destruct (get_present emp "role" Hp) as [role ->]. simpl.
  by destruct (strict_equal role (JStr "user")).
Qed.

Lemma matches_named toLowerCase emp :
  toLowerCase EmptyString = EmptyString ->
  has_string "name" emp ->
  matches toLowerCase EmptyString emp = Normal true.
Proof.
  intros Hlow [s Hs]. unfold matches, field_includes. rewrite Hs. simpl.
  by rewrite Hlow, includes_empty.
Qed.

Lemma matches_nameless toLowerCase searchTerm emp :
  present emp -> ~ has_string "name" emp ->
  matches toLowerCase searchTerm emp = Throw TypeError.
Proof.
  intros Hp Hn. unfold matches, field_includes.
  destruct (get_present emp "name" Hp) as [v Hv]. rewrite Hv. simpl.
  destruct v; try reflexivity. destruct Hn. by eexists.
Qed.

(** X16: an empty search hides nobody, where every employee has a name.
    Over the loaded records (none of them null or undefined), with the
    search box empty (and lower-casing the empty string giving the empty
    string): when every record whose role is [user] holds a string as its
    [name], the matches are exactly the records whose role is [user],
    administrators left out, in their order; when one of these records
    holds anything else as its [name] (the API sent none), computing the
    matches throws a [TypeError]. *)
Theorem empty_search_finds_users toLowerCase employees :
  toLowerCase EmptyString = EmptyString ->
  Forall present employees ->
  (Forall (has_string "name") (users_of employees) ->
   filteredEmployees toLowerCase employees EmptyString
   = Normal (users_of employees))
  /\ (Exists (fun emp => ~ has_string "name" emp) (users_of employees) ->
      filteredEmployees toLowerCase employees EmptyString
      = Throw TypeError).
Proof.
  intros Hlow Hp. unfold filteredEmployees. rewrite filter_users by done.
  simpl. apply users_of_present in Hp. revert Hp.
  generalize (users_of employees) as users. intros users Hp. split.
  - induction 1 as [|emp rest Hs _ IH]; simpl; [done|].
    rewrite matches_named by done. simpl.
    apply Forall_cons in Hp as [_ Hp]. by rewrite IH.
  - induction 1 as [emp rest Hn|emp rest _ IH]; simpl.
    + apply Forall_cons in Hp as [Hp _].
      by rewrite matches_nameless.
    + apply Forall_cons in Hp as [Hp1 Hp].
      destruct (get_present emp "name" Hp1) as [v Hv].
      destruct v;
        try (rewrite matches_nameless;
             [reflexivity|done|intros [s Hs]; congruence]).
      rewrite matches_named by (done || by eexists). simpl.
      by rewrite IH.
Qed.

Lemma empty_search_finds_users_witness :
  filteredEmployees AdminTasksPage.lower [ann_record; root_record]
    EmptyString
  = Normal [ann_record]
  /\ filteredEmployees AdminTasksPage.lower
       [ann_record; root_record; nameless_record] EmptyString
     = Throw TypeError.
Proof.
  split.
  - apply (empty_search_finds_users AdminTasksPage.lower
             [ann_record; root_record]).
    + reflexivity.
    + repeat constructor.
    + repeat constructor. by exists "Ann".
  - apply (empty_search_finds_users AdminTasksPage.lower
             [ann_record; root_record; nameless_record]).
    + reflexivity.
    + repeat constructor.
    + apply Exists_cons_tl, Exists_cons_hd. intros [s Hs]. discriminate Hs.
Defined.

(** The records of the typed page read as loaded records give the same
    matches for a term found in a name. *)
Example search_on_records :
  filteredEmployees AdminTasksPage.lower
    [ann_record; root_record] "ANN" = Normal [ann_record]
  /\ filteredEmployees AdminTasksPage.lower
       [ann_record; root_record] "sales" = Normal [ann_record]
  /\ filteredEmployees AdminTasksPage.lower
       [ann_record; root_record] "zzz" = Normal []
  /\ filteredEmployees AdminTasksPage.lower
       [nameless_record] "x" = Throw TypeError.
Proof. repeat split; reflexivity. Qed.

End TasksSearchProofs.
